(** * Verification of [paddle/fluid/contrib/utils/lookup_table_utils.py]

    A shallow embedding of the three public utilities of the module
    ([convert_dist_to_sparse_program], [load_persistables_for_increment],
    [load_persistables_for_inference]) and of their private helpers,
    together with the part of the host framework's object model
    ([Program], [Block], [Variable], [Operator], [Executor]) they act on. *)

From Stdlib Require Import ZArith Ascii String.
From stdpp Require Import gmap strings list fin_maps pretty.

Local Open Scope Z_scope.
Local Open Scope string_scope.

(** ** Python values: exceptions, results, indexing, ranges, strings *)

Module Py.

(** The exception classes that the modelled code can raise. *)
Inductive exn :=
  | ValueError | TypeError | IndexError | KeyError
  | EnforceNotMet | IOError | OSError.

#[global] Instance exn_eq_dec : EqDecision exn.
Proof. solve_decision. Defined.

(** The outcome of evaluating a Python expression or call. *)
Inductive result (A : Type) :=
  | Return (a : A)
  | Raise (e : exn).
Arguments Return {A} a.
Arguments Raise {A} e.

#[global] Instance result_ret : MRet result := @Return.
#[global] Instance result_bind : MBind result := λ A B f m,
  match m with
  | Return a => f a
  | Raise e => Raise e
  end.

(** [l[i]] on a Python list: a negative index counts from the end, an
    index outside [-len, len) raises [IndexError]. *)
Definition getitem {A} (l : list A) (i : Z) : result A :=
  let n := Z.of_nat (length l) in
  if bool_decide (0 ≤ i < n)%Z then
    match l !! Z.to_nat i with Some x => Return x | None => Raise IndexError end
  else if bool_decide (- n ≤ i < 0)%Z then
    match l !! Z.to_nat (n + i) with Some x => Return x | None => Raise IndexError end
  else Raise IndexError.

(** [d[k]] on a Python dict. *)
Definition dict_getitem {V} (d : gmap string V) (k : string) : result V :=
  match d !! k with Some v => Return v | None => Raise KeyError end.

(** [range(n)]. *)
Definition range (n : nat) : list Z := Z.of_nat <$> seq 0 n.

(** [range(start, stop, -1)]. *)
Definition range_down (start stop : Z) : list Z :=
  (λ k : nat, start - Z.of_nat k) <$> seq 0 (Z.to_nat (start - stop)).

(** [s.startswith(p)]. *)
Fixpoint startswith (p s : string) : bool :=
  match p, s with
  | EmptyString, _ => true
  | String a p', String b s' => bool_decide (a = b) && startswith p' s'
  | String _ _, EmptyString => false
  end.

(** [s.endswith("/")]. *)
Fixpoint endswith_sep (s : string) : bool :=
  match s with
  | EmptyString => false
  | String c EmptyString => bool_decide (c = "/"%char)
  | String _ s' => endswith_sep s'
  end.

(** [needle in hay] on strings. *)
Fixpoint str_in (needle hay : string) : bool :=
  startswith needle hay ||
  match hay with
  | EmptyString => false
  | String _ hay' => str_in needle hay'
  end.

(** [os.path.join(a, b)] of [posixpath]. *)
Definition path_join (a b : string) : string :=
  if startswith "/" b then b
  else if bool_decide (a = EmptyString) || endswith_sep a then a +:+ b
  else a +:+ "/" +:+ b.

(** ["{}_{}".format(s, i)] for a string [s] and an index [i]. *)
Definition format_indexed (s : string) (i : nat) : string :=
  s +:+ "_" +:+ pretty i.

(** Objects that a caller may pass where a [Program] is expected. *)
Inductive obj (P : Type) :=
  | PyNone
  | PyProgram (p : P)
  | PyOther (truthy : bool).
Arguments PyNone {P}.
Arguments PyProgram {P} p.
Arguments PyOther {P} truthy.

(** Truth value of an object ([if program:]). *)
Definition truthy {P} (o : obj P) : bool :=
  match o with
  | PyNone => false
  | PyProgram _ => true
  | PyOther b => b
  end.

End Py.
Export Py.

(** ** The framework's program graph *)

Module Framework.

(** Modelled from the spec: [core.VarDesc.VarType], the descriptor type
    of a variable; the enumeration is declared by the framework. *)
Inductive VarType :=
  | LOD_TENSOR | SELECTED_ROWS | FEED_MINIBATCH | FETCH_LIST
  | STEP_SCOPES | LOD_RANK_TABLE | LOD_TENSOR_ARRAY | PLACE_LIST
  | READER | RAW | TUPLE.

#[global] Instance VarType_eq_dec : EqDecision VarType.
Proof. solve_decision. Defined.

(** Modelled from the spec: the element types of a variable. *)
Inductive DataType :=
  | BOOL | INT16 | INT32 | INT64 | FP16 | FP32 | FP64 | UINT8 | INT8.

#[global] Instance DataType_eq_dec : EqDecision DataType.
Proof. solve_decision. Defined.

(** Modelled from the spec: a [Variable] of a block, with the fields
    of its descriptor that the utilities read or set. *)
Record Variable_ := mkVariable {
  name : string;
  shape : list Z;
  dtype : DataType;
  type : VarType;
  persistable : bool
}.

#[global] Instance Variable_eq_dec : EqDecision Variable_.
Proof. solve_decision. Defined.

(** Modelled from the spec: the attribute values of an operator that
    the utilities set. *)
Inductive Attr :=
  | ABool (b : bool)
  | AStr (s : string).

#[global] Instance Attr_eq_dec : EqDecision Attr.
Proof. solve_decision. Defined.

(** Modelled from the spec: an [Operator] node.  Its input and output
    slots hold variable names, as in the operator's descriptor; [attrs]
    holds the attributes that were given a value when the operator was
    created, not those left at the default of the operator type. *)
Record Operator := mkOperator {
  op_type : string;
  inputs : gmap string (list string);
  outputs : gmap string (list string);
  attrs : gmap string Attr
}.

(** Modelled from the spec: a [Block], the dict [vars] from names to
    variables and the list [ops] of operators. *)
Record Block := mkBlock {
  vars : gmap string Variable_;
  ops : list Operator
}.

(** Modelled from the spec: a [Program].  Block 0 is the global block;
    [_distributed_lookup_table] is [None] or the name of the table. *)
Record Program_ := mkProgram {
  global_block : Block;
  sub_blocks : list Block;
  _distributed_lookup_table : option string;
  _version : Z
}.

(** Modelled from the spec: [Program()], a fresh program with an empty
    global block. *)
Definition new_Program : Program_ :=
  {| global_block := {| vars := ∅; ops := [] |};
     sub_blocks := [];
     _distributed_lookup_table := None;
     _version := 0 |}.

(** The program with its global block replaced. *)
Definition set_global_block (b : Block) (p : Program_) : Program_ :=
  {| global_block := b;
     sub_blocks := sub_blocks p;
     _distributed_lookup_table := _distributed_lookup_table p;
     _version := _version p |}.

(** Modelled from the spec: [op.input(slot)] and [op.output(slot)]; the
    descriptor raises when the operator has no such slot. *)
Definition input (op : Operator) (slot : string) : result (list string) :=
  match inputs op !! slot with
  | Some l => Return l
  | None => Raise EnforceNotMet
  end.

Definition output (op : Operator) (slot : string) : result (list string) :=
  match outputs op !! slot with
  | Some l => Return l
  | None => Raise EnforceNotMet
  end.

(** Modelled from the spec: the renaming of a variable inside the slots
    of an operator, part of [Block._rename_var]. *)
Definition rename_arg (old new : string) (a : string) : string :=
  if bool_decide (a = old) then new else a.

Definition rename_op (old new : string) (op : Operator) : Operator :=
  {| op_type := op_type op;
     inputs := (λ l : list string, rename_arg old new <$> l) <$> inputs op;
     outputs := (λ l : list string, rename_arg old new <$> l) <$> outputs op;
     attrs := attrs op |}.

(** The variable under another name, and under another descriptor type. *)
Definition set_name (n : string) (v : Variable_) : Variable_ :=
  {| name := n; shape := shape v; dtype := dtype v; type := type v;
     persistable := persistable v |}.

Definition set_var_type (t : VarType) (v : Variable_) : Variable_ :=
  {| name := name v; shape := shape v; dtype := dtype v; type := t;
     persistable := persistable v |}.

(** Modelled from the spec: [Block.var(name)], which raises
    [ValueError] when the block has no variable of that name. *)
Definition var (b : Block) (n : string) : result Variable_ :=
  match vars b !! n with
  | Some v => Return v
  | None => Raise ValueError
  end.

(** Modelled from the spec: [Block._rename_var(name, new_name)].  The
    variable is re-registered under its new name, the old entry is
    deleted, and the references held by the operators of the block are
    renamed with it; an unknown name raises [ValueError]. *)
Definition _rename_var (old new : string) (b : Block) : result (Variable_ * Block) :=
  match vars b !! old with
  | None => Raise ValueError
  | Some v =>
      let v' := set_name new v in
      Return (v', {| vars := delete old (<[new := v']> (vars b));
                     ops := rename_op old new <$> ops b |})
  end.

(** Modelled from the spec: [Block.create_var(name, shape, dtype, type,
    persistable)].  A new name is registered; for a name the block
    already has, the requested descriptor must agree with the registered
    one, otherwise [ValueError] is raised. *)
Definition create_var (n : string) (sh : list Z) (dt : DataType)
    (ty : VarType) (pers : bool) (b : Block) : result (Variable_ * Block) :=
  let v := {| name := n; shape := sh; dtype := dt; type := ty;
              persistable := pers |} in
  match vars b !! n with
  | None => Return (v, {| vars := <[n := v]> (vars b); ops := ops b |})
  | Some old =>
      if bool_decide (old = v)
      then Return (v, {| vars := <[n := v]> (vars b); ops := ops b |})
      else Raise ValueError
  end.

(** Modelled from the spec: [var.desc.set_type(t)] on the variable
    registered under [n]; the variable object is shared with [vars]. *)
Definition set_type (n : string) (t : VarType) (b : Block) : Block :=
  {| vars := alter (set_var_type t) n (vars b); ops := ops b |}.

(** Modelled from the spec: [Block._remove_op(index)].  The descriptor
    takes an unsigned index, so a negative one is refused with
    [TypeError]; an index past the end raises [IndexError]. *)
Definition _remove_op (index : Z) (b : Block) : result Block :=
  if bool_decide (index < 0) then Raise TypeError
  else if bool_decide (index < Z.of_nat (length (ops b)))
  then Return {| vars := vars b; ops := delete (Z.to_nat index) (ops b) |}
  else Raise IndexError.

(** Modelled from the spec: the attributes an operator type declares,
    among the attribute names this module passes to the operators it
    creates.  [load] declares [file_path]; [lookup_sparse_table] declares
    none of [is_distributed], [is_sparse] and [grad_inplace]. *)
Definition declares_attr (type attr : string) : bool :=
  bool_decide (type = "load") && bool_decide (attr = "file_path").

(** Modelled from the spec: the construction of an [Operator] from the
    [type], [inputs], [outputs] and [attrs] given to [Block.append_op] and
    [Block._insert_op]; [args] holds the four arguments.  Of the
    attributes passed, only those the operator type declares are stored in
    the operator, the others are dropped without an error; [attrs] of the
    result are the stored ones.  The new operator is then checked by the
    framework, and a [sum] whose input list [X] is empty is refused. *)
Definition make_operator (args : Operator) : result Operator :=
  if bool_decide (op_type args = "sum")
     && bool_decide (default [] (inputs args !! "X") = [])
  then Raise EnforceNotMet
  else Return {| op_type := op_type args;
                 inputs := inputs args;
                 outputs := outputs args;
                 attrs := filter (λ kv, declares_attr (op_type args) kv.1 = true)
                            (attrs args) |}.

(** Modelled from the spec: [Block._insert_op(index, type, inputs,
    outputs, attrs)]: the operator built from the arguments takes
    position [index], the operators from that position on move one place
    up. *)
Definition _insert_op (index : Z) (args : Operator) (b : Block) : result Block :=
  if bool_decide (index < 0) then Raise TypeError
  else if bool_decide (index ≤ Z.of_nat (length (ops b)))%Z
  then op ← make_operator args;
       Return {| vars := vars b;
                 ops := take (Z.to_nat index) (ops b) ++ op :: drop (Z.to_nat index) (ops b) |}
  else Raise IndexError.

(** Modelled from the spec: [Block.append_op(type, inputs, outputs,
    attrs)]: the operator built from the arguments becomes the last one
    of the block; when it is refused, the exception leaves the call. *)
Definition append_op (args : Operator) (b : Block) : result Block :=
  op ← make_operator args;
  Return {| vars := vars b; ops := ops b ++ [op] |}.

(** Modelled from the spec: [Program.list_vars()], the variables of
    every block of the program. *)
Definition list_vars (p : Program_) : list Variable_ :=
  mbind (λ b : Block, snd <$> map_to_list (vars b)) (global_block p :: sub_blocks p).

(** Modelled from the spec: what an executor has been asked to do. *)
Inductive Event :=
  | LoadVars (dirname : string) (vs : list Variable_)
  | Run (p : Program_).

(** Modelled from the spec: the [Executor]; its state is the history of
    the load requests and programs it has run, oldest first.  A request
    is recorded, not carried out: what the operators of a program do
    when they run, and whether they fail, is not part of the model. *)
Record Executor := mkExecutor { history : list Event }.

(** Modelled from the spec: [executor.run(program)]. *)
Definition run (p : Program_) (e : Executor) : Executor :=
  {| history := history e ++ [Run p] |}.

(** Modelled from the spec: [io.load_vars(executor, dirname,
    main_program, predicate, filename=None)], which loads from
    [dirname] every variable of the program the predicate accepts. *)
Definition load_vars (e : Executor) (dirname : string) (main_program : Program_)
    (predicate : Variable_ → bool) : Executor :=
  {| history := history e ++ [LoadVars dirname (filter (λ v, predicate v = true) (list_vars main_program))] |}.

(** The file system and the framework services the utilities call:
    what [os.path.isdir], [os.path.exists], [os.listdir], reading a
    file, [Program.parse_from_string] and
    [core._is_program_version_supported] answer.  [None] stands for a
    directory that cannot be listed, a file that cannot be read and a
    string that is no program. *)
Record Env := mkEnv {
  isdir : string → bool;
  path_exists : string → bool;
  listdir_entries : string → option (list string);
  file_contents : string → option string;
  parsed_program : string → option Program_;
  _is_program_version_supported : Z → bool
}.

(** [os.listdir(path)]. *)
Definition listdir (env : Env) (path : string) : result (list string) :=
  match listdir_entries env path with
  | Some entries => Return entries
  | None => Raise OSError
  end.

(** [open(path, "rb").read()]. *)
Definition read_file (env : Env) (path : string) : result string :=
  match file_contents env path with
  | Some s => Return s
  | None => Raise IOError
  end.

(** [Program.parse_from_string(s)]. *)
Definition parse_from_string (env : Env) (s : string) : result Program_ :=
  match parsed_program env s with
  | Some p => Return p
  | None => Raise EnforceNotMet
  end.

End Framework.
Export Framework.

(** ** State and exceptions

    A computation reads and updates a state of type [S] (the program
    being rewritten, or the executor) and returns or raises; a raise
    leaves the state as it was when the exception was thrown. *)

Module StateExn.

Definition M (S A : Type) : Type := S → S * result A.

#[global] Instance M_ret {S} : MRet (M S) := λ A a s, (s, Return a).
#[global] Instance M_bind {S} : MBind (M S) := λ A B f m s,
  match m s with
  | (s', Return a) => f a s'
  | (s', Raise e) => (s', Raise e)
  end.

Definition raise {S A} (e : exn) : M S A := λ s, (s, Raise e).
Definition get {S} : M S S := λ s, (s, Return s).
Definition modify {S} (f : S → S) : M S unit := λ s, (f s, Return tt).

(** A pure, possibly raising, computation run inside [M]. *)
Definition lift {S A} (r : result A) : M S A := λ s, (s, r).

(** [for x in l: body(x)]. *)
Fixpoint for_each {S A} (l : list A) (body : A → M S unit) : M S unit :=
  match l with
  | [] => mret tt
  | x :: l' => body x ≫= λ _, for_each l' body
  end.

End StateExn.
Export StateExn.

(** ** The module [lookup_table_utils]

    The functions below follow the source line by line.  Calls of the
    logger, [program._sync_with_cpp()] and [program.desc.flush()] leave
    the modelled state as it is and are not written. *)

Module LookupTableUtils.

Definition model_filename : string := "__model__".
Definition lookup_table_dir : string := "__lookup_table__".

(** The arguments [type], [inputs], [outputs] and [attrs] that
    [__insert_lookup_sparse_table_op] passes to [_insert_op]. *)
Definition lookup_sparse_table_op (ids w out : Variable_) : Operator :=
  {| op_type := "lookup_sparse_table";
     inputs := <["Ids" := [name ids]]> (<["W" := [name w]]> ∅);
     outputs := <["Out" := [name out]]> ∅;
     attrs := <["is_distributed" := ABool false]>
                (<["is_sparse" := ABool true]>
                   (<["grad_inplace" := ABool false]> ∅)) |}.

(** A step on the global block of the program held in the state. *)
Definition on_global_block {A} (f : Block → result (A * Block)) : M Program_ A :=
  λ p, match f (global_block p) with
       | Return (a, b) => (set_global_block b p, Return a)
       | Raise e => (p, Raise e)
       end.

(** [__insert_lookup_sparse_table_op(main_program, idx, ids, w, out)]
    (lines 38-49). *)
Definition __insert_lookup_sparse_table_op (idx : Z) (ids w out : Variable_)
    : M Program_ unit :=
  on_global_block (λ b,
    b' ← _insert_op idx (lookup_sparse_table_op ids w out) b; mret (tt, b')).

(** The tuple [(split_ids_op_id, split_ids_inputs, merge_ids_outputs,
    need_delete_vars)]. *)
Definition prefetch_op_tuple : Type :=
  Z * list string * list string * list string.

(** The body of [for i in range(len(op_types))], with its [break]. *)
Fixpoint __get_prefetch_op_tuples_loop (b : Block) (op_types : list string)
    (indices : list Z) : result (option prefetch_op_tuple) :=
  match indices with
  | [] => Return None
  | i :: rest =>
      t ← getitem op_types i;
      if bool_decide (t = "prefetch") then
        t_prev ← getitem op_types (i - 1);
        if bool_decide (t_prev = "split_ids") then
          t_next ← getitem op_types (i + 1);
          if bool_decide (t_next = "merge_ids") then
            let split_ids_op_id := i - 1 in
            op_prev ← getitem (ops b) (i - 1);
            split_ids_inputs ← input op_prev "Ids";
            op_i ← getitem (ops b) i;
            prefetch_op_inputs ← input op_i "X";
            op_i' ← getitem (ops b) i;
            prefetch_op_outputs ← output op_i' "Out";
            op_next ← getitem (ops b) (i + 1);
            merge_ids_outputs ← output op_next "Out";
            let need_delete_vars := (prefetch_op_inputs ++ prefetch_op_outputs)%list in
            Return (Some (split_ids_op_id, split_ids_inputs,
                          merge_ids_outputs, need_delete_vars))
          else __get_prefetch_op_tuples_loop b op_types rest
        else __get_prefetch_op_tuples_loop b op_types rest
      else __get_prefetch_op_tuples_loop b op_types rest
  end.

(** [__get_prefetch_op_tuples(main_program)] (lines 52-78). *)
Definition __get_prefetch_op_tuples (main_program : Program_)
    : result (option prefetch_op_tuple) :=
  let op_types := op_type <$> ops (global_block main_program) in
  __get_prefetch_op_tuples_loop (global_block main_program) op_types
    (range (length op_types)).

(** What [convert_dist_to_sparse_program] hands back: [None], or the
    program object it was given (whose final state is the state). *)
Inductive returned := ReturnedNone | ReturnedProgram.

(** [prefetch_op_tuples[k]]: subscripting [None] raises [TypeError]. *)
Definition subscript_tuple {A} (t : option prefetch_op_tuple)
    (proj : prefetch_op_tuple → A) : result A :=
  match t with
  | Some x => Return (proj x)
  | None => Raise TypeError
  end.

(** [convert_dist_to_sparse_program(program)] (lines 81-128); the
    program is the state. *)
Definition convert_dist_to_sparse_program : M Program_ returned :=
  program ← get;
  match _distributed_lookup_table program with
  | None | Some EmptyString => mret ReturnedNone
  | Some emb_var =>
      let origin_emb_var := emb_var +:+ ".origin" in
      _ ← on_global_block (_rename_var emb_var origin_emb_var);
      program ← get;
      origin_param_var ← lift (dict_getitem (vars (global_block program)) origin_emb_var);
      param_var ← on_global_block
        (create_var emb_var (shape origin_param_var) (dtype origin_param_var)
           SELECTED_ROWS true);
      _ ← on_global_block (λ b, mret (tt, set_type (name param_var) SELECTED_ROWS b));
      program ← get;
      prefetch_op_tuples ← lift (__get_prefetch_op_tuples program);
      split_ids_id ← lift (subscript_tuple prefetch_op_tuples (λ t, t.1.1.1));
      _ ← for_each (range_down (split_ids_id + 2) (split_ids_id - 1)) (λ idx,
            on_global_block (λ b, b' ← _remove_op idx b; mret (tt, b')));
      ins ← lift (subscript_tuple prefetch_op_tuples (λ t, t.1.1.2));
      outs ← lift (subscript_tuple prefetch_op_tuples (λ t, t.1.2));
      let in_out_pairs := zip ins outs in
      _ ← for_each in_out_pairs (λ in_out_pair,
            let idx := split_ids_id in
            program ← get;
            ids ← lift (dict_getitem (vars (global_block program)) in_out_pair.1);
            out ← lift (dict_getitem (vars (global_block program)) in_out_pair.2);
            __insert_lookup_sparse_table_op idx ids param_var out);
      mret ReturnedProgram
  end.

(** [is_valid(var)] (lines 143-165), the predicate built by
    [_is_checkpoint_var(exclude_fluid_vars)]. *)
Definition is_valid (exclude_fluid_vars : list string) (v : Variable_) : bool :=
  if bool_decide (type v = FEED_MINIBATCH) || bool_decide (type v = FETCH_LIST)
     || bool_decide (type v = RAW) then false
  else if str_in "@GRAD" (name v) then false
  else if str_in ".trainer_" (name v) then false
  else if str_in ".block" (name v) then false
  else if str_in "tmp_" (name v) then false
  else if bool_decide (name v ∈ exclude_fluid_vars) then false
  else persistable v.

Definition _is_checkpoint_var (exclude_fluid_vars : option (list string))
    : Variable_ → bool :=
  let exclude_fluid_vars := default [] exclude_fluid_vars in
  is_valid exclude_fluid_vars.

(** [_load_persistable_vars(executor, dirname, program,
    lookup_table_vars)] (lines 131-174); the executor is the state. *)
Definition _load_persistable_vars (dirname : string) (program : Program_)
    (lookup_table_vars : list string) : M Executor unit :=
  modify (λ executor,
    load_vars executor dirname program (_is_checkpoint_var (Some lookup_table_vars))).

(** The arguments of [append_op(type='load', inputs={},
    outputs={'Out': [v]}, attrs={'file_path': path})]. *)
Definition load_op (v : Variable_) (path : string) : Operator :=
  {| op_type := "load";
     inputs := ∅;
     outputs := <["Out" := [name v]]> ∅;
     attrs := <["file_path" := AStr path]> ∅ |}.

Module ForIncrement.

(** [__load_lookup_table_vars], local to
    [load_persistables_for_increment] (lines 194-205). *)
Definition __load_lookup_table_vars (main_program : Program_)
    (lookup_table_var lookup_table_var_path : string) : M Executor unit :=
  emb_var ← lift (var (global_block main_program) lookup_table_var);
  let load_program := new_Program in
  let load_block := global_block load_program in
  load_block ← lift (append_op (load_op emb_var lookup_table_var_path) load_block);
  modify (run (set_global_block load_block load_program)).

End ForIncrement.

(** [load_persistables_for_increment(dirname, executor, program,
    lookup_table_var, lookup_table_var_path)] (lines 177-226); it
    returns None. *)
Definition load_persistables_for_increment (env : Env) (dirname : string)
    (program : obj Program_) (lookup_table_var lookup_table_var_path : string)
    : M Executor unit :=
  if negb (isdir env dirname) then raise ValueError
  else if negb (path_exists env lookup_table_var_path) then raise ValueError
  else match program with
       | PyProgram program =>
           _ ← _load_persistable_vars dirname program [lookup_table_var];
           ForIncrement.__load_lookup_table_vars program lookup_table_var
             lookup_table_var_path
       | _ => raise ValueError
       end.

Module ForInference.

(** The body of [for i, emb_file in enumerate(emb_files)]: the state of
    the loop is the global block of [convert_program] and [sums]. *)
Fixpoint load_shards (lookup_table_dirname : string) (emb_var : Variable_)
    (i : nat) (emb_files : list string) (global_block : Block)
    (sums : list Variable_) : result (Block * list Variable_) :=
  match emb_files with
  | [] => Return (global_block, sums)
  | emb_file :: rest =>
      let var_name := format_indexed (name emb_var) i in
      '(param_var, global_block) ←
        create_var var_name (shape emb_var) (dtype emb_var) SELECTED_ROWS true
          global_block;
      let global_block := set_type (name param_var) SELECTED_ROWS global_block in
      global_block ←
        append_op (load_op param_var (path_join lookup_table_dirname var_name))
          global_block;
      load_shards lookup_table_dirname emb_var (S i) rest global_block
        (sums ++ [param_var])%list
  end.

(** The arguments of [append_op(type='sum', inputs={"X": sums},
    outputs={'Out': emb_var}, attrs={})]. *)
Definition sum_op (sums : list Variable_) (emb_var : Variable_) : Operator :=
  {| op_type := "sum";
     inputs := <["X" := name <$> sums]> ∅;
     outputs := <["Out" := [name emb_var]]> ∅;
     attrs := ∅ |}.

(** The arguments of [append_op(type='delete_var', inputs={'X': sums})]. *)
Definition delete_var_op (sums : list Variable_) : Operator :=
  {| op_type := "delete_var";
     inputs := <["X" := name <$> sums]> ∅;
     outputs := ∅;
     attrs := ∅ |}.

(** The names [os.listdir] returned that contain the table's name. *)
Definition select_emb_files (emb_var_name : string) (entries : list string)
    : list string :=
  filter (λ emb_name, str_in emb_var_name emb_name = true) entries.

(** [__load_lookup_table_vars], local to
    [load_persistables_for_inference] (lines 243-291), up to the program
    it builds; running it is the last step. *)
Definition build_convert_program (env : Env) (dirname : string)
    (main_program : Program_) (lookup_table_vars : list string)
    : result Program_ :=
  if negb (isdir env dirname) then Raise ValueError
  else
    let lookup_table_dirname := path_join dirname lookup_table_dir in
    emb_var_name ← getitem lookup_table_vars 0;
    emb_var ← var (Framework.global_block main_program) emb_var_name;
    entries ← listdir env lookup_table_dirname;
    let emb_files := select_emb_files emb_var_name entries in
    let convert_program := new_Program in
    let global_block := Framework.global_block convert_program in
    '(emb_var, global_block) ←
      create_var (name emb_var) (shape emb_var) (dtype emb_var) SELECTED_ROWS
        true global_block;
    let global_block := set_type (name emb_var) SELECTED_ROWS global_block in
    '(global_block, sums) ←
      load_shards lookup_table_dirname emb_var 0 emb_files global_block [];
    global_block ← append_op (sum_op sums emb_var) global_block;
    global_block ← append_op (delete_var_op sums) global_block;
    Return (set_global_block global_block convert_program).

Definition __load_lookup_table_vars (env : Env) (dirname : string)
    (main_program : Program_) (lookup_table_vars : list string)
    : M Executor unit :=
  convert_program ←
    lift (build_convert_program env dirname main_program lookup_table_vars);
  modify (run convert_program).

End ForInference.

(** The [if program: ... else: ...] part of
    [load_persistables_for_inference], which settles the program used. *)
Definition resolve_program (env : Env) (dirname : string)
    (program : obj Program_) : result Program_ :=
  if truthy program then
    match program with
    | PyProgram program => Return program
    | _ => Raise ValueError
    end
  else
    let local_model := path_join dirname model_filename in
    program_desc_str ← read_file env local_model;
    program ← parse_from_string env program_desc_str;
    if negb (_is_program_version_supported env (_version program))
    then Raise ValueError
    else Return program.

(** [load_persistables_for_inference(dirname, executor, program,
    lookup_table_var_name)] (lines 229-323). *)
Definition load_persistables_for_inference (env : Env) (dirname : string)
    (program : obj Program_) (lookup_table_var_name : string)
    : M Executor Program_ :=
  if negb (isdir env dirname) then raise ValueError
  else
    program ← lift (resolve_program env dirname program);
    _ ← _load_persistable_vars dirname program [lookup_table_var_name];
    _ ← ForInference.__load_lookup_table_vars env dirname program
          [lookup_table_var_name];
    mret program.

End LookupTableUtils.
Export LookupTableUtils.

(** ** Vocabulary of the statements *)

Module Spec.

(** [needle] occurs in [hay] as a contiguous substring. *)
Definition contains (needle hay : string) : Prop :=
  ∃ pre post, hay = pre +:+ needle +:+ post.

(** The variables a checkpoint keeps, apart from any exclusion list:
    persistable, of an ordinary descriptor type, and not named like a
    gradient, a trainer copy, a block slice or a temporary. *)
Definition checkpoint_var (v : Variable_) : Prop :=
  persistable v = true
  ∧ type v ≠ FEED_MINIBATCH ∧ type v ≠ FETCH_LIST ∧ type v ≠ RAW
  ∧ ¬ contains "@GRAD" (name v)
  ∧ ¬ contains ".trainer_" (name v)
  ∧ ¬ contains ".block" (name v)
  ∧ ¬ contains "tmp_" (name v).

(** The SELECTED_ROWS variable standing for the whole table in the
    program built by [load_persistables_for_inference]. *)
Definition table_var (emb_var : Variable_) : Variable_ :=
  {| name := name emb_var; shape := shape emb_var; dtype := dtype emb_var;
     type := SELECTED_ROWS; persistable := true |}.

(** The temporary variable that receives shard number [i]: its name is
    the table's name, an underscore and [i] in decimal. *)
Definition shard_var (emb_var : Variable_) (i : nat) : Variable_ :=
  {| name := name emb_var +:+ "_" +:+ pretty i; shape := shape emb_var;
     dtype := dtype emb_var; type := SELECTED_ROWS; persistable := true |}.

(** The 'load' operator that reads the file [path] into the variable
    named [out]. *)
Definition stored_load (out path : string) : Operator :=
  {| op_type := "load";
     inputs := ∅;
     outputs := {[ "Out" := [out] ]};
     attrs := {[ "file_path" := AStr path ]} |}.

(** The file a 'load' operator reads. *)
Definition op_load_path (o : Operator) : option string :=
  if bool_decide (op_type o = "load") then
    match attrs o !! "file_path" with
    | Some (AStr path) => Some path
    | _ => None
    end
  else None.

(** The files read by the 'load' operators of a program. *)
Definition load_paths (p : Program_) : list string :=
  omap op_load_path (ops (global_block p)).

(** The programs an executor has run, oldest first. *)
Definition programs_run (e : Executor) : list Program_ :=
  omap (λ ev, match ev with Run p => Some p | LoadVars _ _ => None end) (history e).

(** An operator carries the slots its type requires. *)
Definition op_schema (o : Operator) : Prop :=
  (op_type o = "split_ids" → is_Some (inputs o !! "Ids"))
  ∧ (op_type o = "prefetch" →
     is_Some (inputs o !! "X") ∧ is_Some (outputs o !! "Out"))
  ∧ (op_type o = "merge_ids" → is_Some (outputs o !! "Out")).

(** Every variable is registered under its own name. *)
Definition vars_named (b : Block) : Prop :=
  ∀ k v, vars b !! k = Some v → name v = k.

(** Every name in a slot of the operator is declared in the block. *)
Definition args_declared (b : Block) (o : Operator) : Prop :=
  (∀ slot l a, inputs o !! slot = Some l → a ∈ l → is_Some (vars b !! a))
  ∧ (∀ slot l a, outputs o !! slot = Some l → a ∈ l → is_Some (vars b !! a)).

(** The operator types at positions [s], [s+1], [s+2] are split_ids,
    prefetch, merge_ids. *)
Definition triple_at (op_types : list string) (s : nat) : Prop :=
  op_types !! s = Some "split_ids"
  ∧ op_types !! S s = Some "prefetch"
  ∧ op_types !! S (S s) = Some "merge_ids".

#[global] Instance triple_at_dec op_types s : Decision (triple_at op_types s).
Proof. unfold triple_at. apply _. Defined.

(** A prefetch at position 0 whose "previous" operator, found by the
    index -1, is the last operator of the block. *)
Definition wrapped_triple (op_types : list string) : Prop :=
  op_types !! 0%nat = Some "prefetch"
  ∧ last op_types = Some "split_ids"
  ∧ op_types !! 1%nat = Some "merge_ids".

(** The first split_ids, prefetch, merge_ids sequence starts at [s],
    and the scan does not stop before it. *)
Definition first_triple_at (op_types : list string) (s : nat) : Prop :=
  triple_at op_types s
  ∧ (∀ s', (s' < s)%nat → ¬ triple_at op_types s')
  ∧ ¬ wrapped_triple op_types.

(** The test made at index [i] of the scan. *)
Definition probe (op_types : list string) (i : Z) : result bool :=
  t ← getitem op_types i;
  if bool_decide (t = "prefetch") then
    t_prev ← getitem op_types (i - 1);
    if bool_decide (t_prev = "split_ids") then
      t_next ← getitem op_types (i + 1);
      Return (bool_decide (t_next = "merge_ids"))
    else Return false
  else Return false.

(** The tuple assembled at index [i] once the test has succeeded. *)
Definition collect_tuple (b : Block) (i : Z) : result (option prefetch_op_tuple) :=
  op_prev ← getitem (ops b) (i - 1);
  split_ids_inputs ← input op_prev "Ids";
  op_i ← getitem (ops b) i;
  prefetch_op_inputs ← input op_i "X";
  op_i' ← getitem (ops b) i;
  prefetch_op_outputs ← output op_i' "Out";
  op_next ← getitem (ops b) (i + 1);
  merge_ids_outputs ← output op_next "Out";
  Return (Some (i - 1, split_ids_inputs, merge_ids_outputs,
                (prefetch_op_inputs ++ prefetch_op_outputs)%list)).

(** The variable [convert_dist_to_sparse_program] creates under the
    table's name, from the variable [v0] that bore it. *)
Definition sparse_table_var (emb : string) (v0 : Variable_) : Variable_ :=
  {| name := emb; shape := shape v0; dtype := dtype v0;
     type := SELECTED_ROWS; persistable := true |}.

(** The global block once the table variable has been renamed and
    re-created. *)
Definition retabled_block (emb : string) (v0 : Variable_) (b : Block) : Block :=
  let origin := emb +:+ ".origin" in
  {| vars := <[emb := sparse_table_var emb v0]>
               (delete emb (<[origin := set_name origin v0]> (vars b)));
     ops := rename_op emb origin <$> ops b |}.

(** The body of [for idx in range(split_ids_id + 2, split_ids_id - 1, -1)]. *)
Definition remove_body (idx : Z) : M Program_ unit :=
  on_global_block (λ b, b' ← _remove_op idx b; mret (tt, b')).

(** The body of [for in_out_pair in in_out_pairs]. *)
Definition insert_body (split_ids_id : Z) (param_var : Variable_)
    (in_out_pair : string * string) : M Program_ unit :=
  let idx := split_ids_id in
  program ← get;
  ids ← lift (dict_getitem (vars (global_block program)) in_out_pair.1);
  out ← lift (dict_getitem (vars (global_block program)) in_out_pair.2);
  __insert_lookup_sparse_table_op idx ids param_var out.

(** The rest of [convert_dist_to_sparse_program], from the call of
    [__get_prefetch_op_tuples] on. *)
Definition rewrite_lookup_ops (param_var : Variable_) : M Program_ returned :=
  program ← get;
  prefetch_op_tuples ← lift (__get_prefetch_op_tuples program);
  split_ids_id ← lift (subscript_tuple prefetch_op_tuples (λ t, t.1.1.1));
  _ ← for_each (range_down (split_ids_id + 2) (split_ids_id - 1)) remove_body;
  ins ← lift (subscript_tuple prefetch_op_tuples (λ t, t.1.1.2));
  outs ← lift (subscript_tuple prefetch_op_tuples (λ t, t.1.2));
  let in_out_pairs := zip ins outs in
  _ ← for_each in_out_pairs (insert_body split_ids_id param_var);
  mret ReturnedProgram.

(** [rewrite_lookup_ops] with the framework's [Block._remove_op] left
    open, as in [convert_over] below. *)
Definition rewrite_lookup_ops_over (remove_op : Z → Block → result Block)
    (param_var : Variable_) : M Program_ returned :=
  program ← get;
  prefetch_op_tuples ← lift (__get_prefetch_op_tuples program);
  split_ids_id ← lift (subscript_tuple prefetch_op_tuples (λ t, t.1.1.1));
  _ ← for_each (range_down (split_ids_id + 2) (split_ids_id - 1)) (λ idx,
        on_global_block (λ b, b' ← remove_op idx b; mret (tt, b')));
  ins ← lift (subscript_tuple prefetch_op_tuples (λ t, t.1.1.2));
  outs ← lift (subscript_tuple prefetch_op_tuples (λ t, t.1.2));
  let in_out_pairs := zip ins outs in
  _ ← for_each in_out_pairs (insert_body split_ids_id param_var);
  mret ReturnedProgram.

(** The lookup_sparse_table operator that reads the ids [ids] in the
    table [w] and writes [out]; all three are variable names.  It stores
    none of the attributes passed at its creation. *)
Definition sparse_lookup (ids w out : string) : Operator :=
  {| op_type := "lookup_sparse_table";
     inputs := {[ "Ids" := [ids]; "W" := [w] ]};
     outputs := {[ "Out" := [out] ]};
     attrs := ∅ |}.

(** [convert_dist_to_sparse_program] with the framework's
    [Block._remove_op] left open: [remove_op] stands for it.  The calls
    the conversion makes of it, and their order, can be read off this
    form. *)
Definition convert_over (remove_op : Z → Block → result Block)
    : M Program_ returned :=
  program ← get;
  match _distributed_lookup_table program with
  | None | Some EmptyString => mret ReturnedNone
  | Some emb_var =>
      let origin_emb_var := emb_var +:+ ".origin" in
      _ ← on_global_block (_rename_var emb_var origin_emb_var);
      program ← get;
      origin_param_var ← lift (dict_getitem (vars (global_block program)) origin_emb_var);
      param_var ← on_global_block
        (create_var emb_var (shape origin_param_var) (dtype origin_param_var)
           SELECTED_ROWS true);
      _ ← on_global_block (λ b, mret (tt, set_type (name param_var) SELECTED_ROWS b));
      program ← get;
      prefetch_op_tuples ← lift (__get_prefetch_op_tuples program);
      split_ids_id ← lift (subscript_tuple prefetch_op_tuples (λ t, t.1.1.1));
      _ ← for_each (range_down (split_ids_id + 2) (split_ids_id - 1)) (λ idx,
            on_global_block (λ b, b' ← remove_op idx b; mret (tt, b')));
      ins ← lift (subscript_tuple prefetch_op_tuples (λ t, t.1.1.2));
      outs ← lift (subscript_tuple prefetch_op_tuples (λ t, t.1.2));
      let in_out_pairs := zip ins outs in
      _ ← for_each in_out_pairs (insert_body split_ids_id param_var);
      mret ReturnedProgram
  end.

(** The name [a] is declared in the block, under itself. *)
Definition declared_as (b : Block) (a : string) : Prop :=
  ∃ v, vars b !! a = Some v ∧ name v = a.

End Spec.
Export Spec.

(** ** Concrete programs, directories and executors *)

Module Examples.

Definition dense (n : string) : Variable_ :=
  {| name := n; shape := [10; 8]; dtype := FP32; type := LOD_TENSOR;
     persistable := true |}.

Definition declare (names : list string) : gmap string Variable_ :=
  list_to_map ((λ n, (n, dense n)) <$> names).

Definition op (t : string) (ins outs : list (string * list string)) : Operator :=
  {| op_type := t; inputs := list_to_map ins; outputs := list_to_map outs;
     attrs := ∅ |}.

Definition feed_op : Operator := op "feed" [("X", ["feed"])] [("Out", ["ids"])].
Definition split_ids_op : Operator :=
  op "split_ids" [("Ids", ["ids"])] [("Out", ["ids.0"; "ids.1"])].
Definition prefetch_op : Operator :=
  op "prefetch" [("X", ["ids.0"; "ids.1"])] [("Out", ["row.0"; "row.1"])].
Definition merge_ids_op : Operator :=
  op "merge_ids" [("Ids", ["ids"]); ("X", ["row.0"; "row.1"])] [("Out", ["emb_out"])].
Definition mul_op : Operator :=
  op "mul" [("X", ["emb_out"]); ("Y", ["fc_w"])] [("Out", ["fc_out"])].

Definition trainer_vars : gmap string Variable_ :=
  declare ["emb"; "feed"; "ids"; "ids.0"; "ids.1"; "row.0"; "row.1";
           "emb_out"; "fc_w"; "fc_out"].

Definition program_with (vs : gmap string Variable_) (os : list Operator)
    (table : option string) : Program_ :=
  {| global_block := {| vars := vs; ops := os |};
     sub_blocks := [];
     _distributed_lookup_table := table;
     _version := 0 |}.

(** A trainer program as the distribute transpiler leaves it. *)
Definition trainer_program : Program_ :=
  program_with trainer_vars
    [feed_op; split_ids_op; prefetch_op; merge_ids_op; mul_op] (Some "emb").

(** The same operators, but no distributed lookup table is recorded. *)
Definition untabled_program : Program_ :=
  program_with trainer_vars
    [feed_op; split_ids_op; prefetch_op; merge_ids_op; mul_op] None.

(** A lookup table is recorded, but the block has no prefetch operator. *)
Definition no_prefetch_program : Program_ :=
  program_with trainer_vars [feed_op; mul_op] (Some "emb").

(** The prefetch operator, preceded by split_ids, is the last one. *)
Definition prefetch_last_program : Program_ :=
  program_with trainer_vars [feed_op; split_ids_op; prefetch_op] (Some "emb").

(** The block starts with prefetch, merge_ids and ends with split_ids. *)
Definition wrapped_program : Program_ :=
  program_with trainer_vars [prefetch_op; merge_ids_op; mul_op; split_ids_op]
    (Some "emb").

(** Two split_ids, prefetch, merge_ids sequences, one after the other. *)
Definition two_sequence_program : Program_ :=
  program_with trainer_vars
    [feed_op; split_ids_op; prefetch_op; merge_ids_op;
     split_ids_op; prefetch_op; merge_ids_op; mul_op] (Some "emb").

(** The operators refer to "ids", which the global block does not declare. *)
Definition undeclared_ids_program : Program_ :=
  program_with
    (declare ["emb"; "ids.0"; "ids.1"; "row.0"; "row.1"; "emb_out"; "fc_w"; "fc_out"])
    [split_ids_op; prefetch_op; merge_ids_op; mul_op] (Some "emb").

(** A checkpoint directory "ckpt" with a model file, a table file and
    the listed entries in its "__lookup_table__" subdirectory. *)
Definition checkpoint_env (entries : list string) : Env :=
  {| isdir := λ d, bool_decide (d = "ckpt") || bool_decide (d = "ckpt/__lookup_table__");
     path_exists := λ f, bool_decide (f ∈ ["ckpt"; "ckpt/__model__"; "ckpt/emb_table"]);
     listdir_entries := λ d, if bool_decide (d = "ckpt/__lookup_table__")
                             then Some entries else None;
     file_contents := λ f, if bool_decide (f = "ckpt/__model__") then Some "model"
                           else None;
     parsed_program := λ s, if bool_decide (s = "model") then Some trainer_program
                            else None;
     _is_program_version_supported := λ v, bool_decide (v = 0) |}.

(** The same directory, read by a framework that supports no version
    of a stored program. *)
Definition unsupported_env (entries : list string) : Env :=
  {| isdir := isdir (checkpoint_env entries);
     path_exists := path_exists (checkpoint_env entries);
     listdir_entries := listdir_entries (checkpoint_env entries);
     file_contents := file_contents (checkpoint_env entries);
     parsed_program := parsed_program (checkpoint_env entries);
     _is_program_version_supported := λ _, false |}.

(** A file system in which nothing exists. *)
Definition empty_env : Env :=
  {| isdir := λ _, false;
     path_exists := λ _, false;
     listdir_entries := λ _, None;
     file_contents := λ _, None;
     parsed_program := λ _, None;
     _is_program_version_supported := λ v, bool_decide (v = 0) |}.

(** An executor that has not run anything yet. *)
Definition idle : Executor := {| history := [] |}.

End Examples.

(** * Facts about the Python layer *)

Section PythonFacts.

Lemma startswith_spec p s : startswith p s = true ↔ ∃ post, s = p +:+ post.
Proof.
  revert s. induction p as [|a p IH]; intros s; simpl.
  - split; [intros _; by exists s | done].
  - destruct s as [|b s]; simpl.
    + split; [done | intros [post H]; discriminate].
    + rewrite andb_true_iff, bool_decide_eq_true, IH. split.
      * intros [-> [post ->]]. by exists post.
      * intros [post H]. injection H as -> ->. eauto.
Qed.

Lemma str_in_unfold n h :
  str_in n h = startswith n h
               || match h with EmptyString => false | String _ h' => str_in n h' end.
Proof. by destruct h. Qed.

Lemma str_in_spec n h : str_in n h = true ↔ contains n h.
Proof.
  unfold contains. induction h as [|c h IH].
  - rewrite str_in_unfold, orb_false_r, startswith_spec. split.
    + intros [post H]. by exists EmptyString, post.
    + intros [[|c pre] [post H]]; [by exists post | discriminate].
  - rewrite str_in_unfold, orb_true_iff, startswith_spec, IH. split.
    + intros [[post H] | (pre & post & H)].
      * by exists EmptyString, post.
      * exists (String c pre), post. simpl. by rewrite H.
    + intros [[|c' pre] [post H]].
      * left. by exists post.
      * right. simpl in H. injection H as -> ->. by exists pre, post.
Qed.

Lemma str_in_false n h : str_in n h = false ↔ ¬ contains n h.
Proof. rewrite <- str_in_spec. by destruct (str_in n h). Qed.

Lemma string_length_app (s t : string) :
  String.length (s +:+ t) = (String.length s + String.length t)%nat.
Proof. induction s; simpl; [done | by f_equal]. Qed.

Lemma app_suffix_ne (s t : string) : t ≠ EmptyString → s +:+ t ≠ s.
Proof.
  intros Ht H. apply (f_equal String.length) in H.
  rewrite string_length_app in H. destruct t; [done | simpl in H; lia].
Qed.

Lemma format_indexed_inj s : Inj (=) (=) (format_indexed s).
Proof.
  intros i j H. unfold format_indexed in H.
  apply String.app_inj in H. apply String.app_inj in H.
  by apply pretty_nat_inj in H.
Qed.

Lemma format_indexed_ne s i : format_indexed s i ≠ s.
Proof. unfold format_indexed. by apply app_suffix_ne. Qed.

Lemma getitem_nat {A} (l : list A) (i : nat) x :
  l !! i = Some x → getitem l (Z.of_nat i) = Return x.
Proof.
  intros H. pose proof (lookup_lt_Some _ _ _ H). unfold getitem.
  rewrite bool_decide_eq_true_2 by lia. by rewrite Nat2Z.id, H.
Qed.

Lemma getitem_last {A} (l : list A) x :
  last l = Some x → getitem l (-1) = Return x.
Proof.
  intros H. unfold getitem.
  rewrite last_lookup in H. pose proof (lookup_lt_Some _ _ _ H).
  rewrite bool_decide_eq_false_2 by lia.
  rewrite bool_decide_eq_true_2 by lia.
  replace (Z.to_nat (Z.of_nat (length l) + -1)) with (pred (length l)) by lia.
  by rewrite H.
Qed.

Lemma range_down_3 s : range_down (s + 2) (s - 1) = [s + 2; s + 1; s].
Proof.
  unfold range_down. replace (Z.to_nat (s + 2 - (s - 1))) with 3%nat by lia.
  simpl. repeat f_equal; lia.
Qed.

End PythonFacts.

(** * The checkpoint predicate and [_load_persistable_vars] *)

Section Checkpoint.

Lemma is_valid_iff (exclude_fluid_vars : list string) (v : Variable_) :
  is_valid exclude_fluid_vars v = true
  ↔ checkpoint_var v ∧ name v ∉ exclude_fluid_vars.
Proof.
  unfold is_valid, checkpoint_var.
  destruct (bool_decide (type v = FEED_MINIBATCH)) eqn:E1;
    [apply bool_decide_eq_true in E1; simpl; split; [done | tauto]
    | apply bool_decide_eq_false in E1].
  destruct (bool_decide (type v = FETCH_LIST)) eqn:E2;
    [apply bool_decide_eq_true in E2; simpl; split; [done | tauto]
    | apply bool_decide_eq_false in E2].
  destruct (bool_decide (type v = RAW)) eqn:E3;
    [apply bool_decide_eq_true in E3; simpl; split; [done | tauto]
    | apply bool_decide_eq_false in E3].
  simpl.
  destruct (str_in "@GRAD" (name v)) eqn:G1;
    [apply str_in_spec in G1; split; [done | tauto] | apply str_in_false in G1].
  destruct (str_in ".trainer_" (name v)) eqn:G2;
    [apply str_in_spec in G2; split; [done | tauto] | apply str_in_false in G2].
  destruct (str_in ".block" (name v)) eqn:G3;
    [apply str_in_spec in G3; split; [done | tauto] | apply str_in_false in G3].
  destruct (str_in "tmp_" (name v)) eqn:G4;
    [apply str_in_spec in G4; split; [done | tauto] | apply str_in_false in G4].
  destruct (bool_decide (name v ∈ exclude_fluid_vars)) eqn:X;
    [apply bool_decide_eq_true in X; split; [done | tauto]
    | apply bool_decide_eq_false in X].
  tauto.
Qed.

Lemma _load_persistable_vars_run dirname program lookup_table_vars executor :
  _load_persistable_vars dirname program lookup_table_vars executor
  = ({| history := history executor
          ++ [LoadVars dirname
                (filter (λ v, is_valid lookup_table_vars v = true)
                   (list_vars program))] |},
     Return tt).
Proof. reflexivity. Qed.

(** C9.  The predicate handed to [io.load_vars] accepts a variable
    exactly when it is persistable, its descriptor type is none of
    FEED_MINIBATCH, FETCH_LIST and RAW, its name contains none of
    "@GRAD", ".trainer_", ".block" and "tmp_", and its name is not in
    the excluded list; [_load_persistable_vars], through which both
    loaders read the checkpoint directory, asks the executor for
    exactly the accepted variables of the program. *)
Theorem checkpoint_predicate_accepts dirname program lookup_table_vars executor :
  (∀ v, _is_checkpoint_var (Some lookup_table_vars) v = true
        ↔ persistable v = true
          ∧ type v ≠ FEED_MINIBATCH ∧ type v ≠ FETCH_LIST ∧ type v ≠ RAW
          ∧ ¬ contains "@GRAD" (name v)
          ∧ ¬ contains ".trainer_" (name v)
          ∧ ¬ contains ".block" (name v)
          ∧ ¬ contains "tmp_" (name v)
          ∧ name v ∉ lookup_table_vars)
  ∧ ∃ loaded,
      _load_persistable_vars dirname program lookup_table_vars executor
      = ({| history := history executor ++ [LoadVars dirname loaded] |}, Return tt)
      ∧ ∀ v, v ∈ loaded
             ↔ v ∈ list_vars program
               ∧ _is_checkpoint_var (Some lookup_table_vars) v = true.
Proof.
  split.
  - intros v. unfold _is_checkpoint_var. simpl.
    rewrite is_valid_iff. unfold checkpoint_var. tauto.
  - eexists. split; [apply _load_persistable_vars_run |].
    intros v. rewrite list_elem_of_filter. unfold _is_checkpoint_var. simpl. tauto.
Qed.

End Checkpoint.

(** * [load_persistables_for_increment] *)

Section Increment.

(** The 'load' operator as the block stores it: [file_path] is an
    attribute the type declares, so it is kept. *)
Lemma make_operator_load v path :
  make_operator (load_op v path)
  = Return {| op_type := "load"; inputs := ∅;
              outputs := {[ "Out" := [name v] ]};
              attrs := {[ "file_path" := AStr path ]} |}.
Proof. reflexivity. Qed.

(** The program that [__load_lookup_table_vars] builds and runs. *)
Lemma increment_load_program_run p tbl path emb_var e :
  vars (global_block p) !! tbl = Some emb_var →
  ForIncrement.__load_lookup_table_vars p tbl path e
  = ({| history := history e
          ++ [Run {| global_block :=
                       {| vars := ∅;
                          ops := [ {| op_type := "load"; inputs := ∅;
                                      outputs := {[ "Out" := [name emb_var] ]};
                                      attrs := {[ "file_path" := AStr path ]} |} ] |};
                     sub_blocks := [];
                     _distributed_lookup_table := None;
                     _version := 0 |}] |},
     Return tt).
Proof.
  intros H. unfold ForIncrement.__load_lookup_table_vars, var.
  unfold mbind, M_bind, lift. rewrite H.
  unfold append_op. rewrite make_operator_load. reflexivity.
Qed.

Lemma increment_load_program_missing p tbl path e :
  vars (global_block p) !! tbl = None →
  ForIncrement.__load_lookup_table_vars p tbl path e = (e, Raise ValueError).
Proof.
  intros H. unfold ForIncrement.__load_lookup_table_vars, var.
  unfold mbind, M_bind, lift. by rewrite H.
Qed.

(** C4.  A call with an existing directory, an existing table file and
    a program that declares the table variable first asks for the
    checkpoint variables of the program other than the table variable,
    from [dirname], then runs a fresh program: its global block declares
    no variable and holds one operator, it has no other block, and the
    operator is a 'load' without inputs, with the table variable as
    output [Out] and with [file_path = lookup_table_var_path].  The call
    returns None. *)
Theorem load_persistables_for_increment_valid
    env dirname p lookup_table_var lookup_table_var_path e emb_var :
  isdir env dirname = true →
  path_exists env lookup_table_var_path = true →
  vars (global_block p) !! lookup_table_var = Some emb_var →
  ∃ loaded load_program load,
    load_persistables_for_increment env dirname (PyProgram p) lookup_table_var
      lookup_table_var_path e
    = ({| history := history e ++ [LoadVars dirname loaded; Run load_program] |},
       Return tt)
    ∧ (∀ v, v ∈ loaded
            ↔ v ∈ list_vars p ∧ checkpoint_var v ∧ name v ≠ lookup_table_var)
    ∧ vars (global_block load_program) = ∅
    ∧ ops (global_block load_program) = [load]
    ∧ sub_blocks load_program = []
    ∧ op_type load = "load"
    ∧ inputs load = ∅
    ∧ outputs load = {[ "Out" := [name emb_var] ]}
    ∧ attrs load = {[ "file_path" := AStr lookup_table_var_path ]}.
Proof.
  intros Hdir Hfile Hvar.
  exists (filter (λ v, is_valid [lookup_table_var] v = true) (list_vars p)).
  eexists.
  exists {| op_type := "load"; inputs := ∅;
            outputs := {[ "Out" := [name emb_var] ]};
            attrs := {[ "file_path" := AStr lookup_table_var_path ]} |}.
  split; [| split].
  - unfold load_persistables_for_increment. rewrite Hdir, Hfile. simpl.
    unfold mbind, M_bind. rewrite _load_persistable_vars_run.
    rewrite (increment_load_program_run _ _ _ emb_var) by done.
    simpl. by rewrite <- app_assoc.
  - intros v. rewrite list_elem_of_filter, is_valid_iff, list_elem_of_singleton.
    tauto.
  - by repeat split.
Qed.

(** The theorem at the example checkpoint directory. *)
Lemma load_persistables_for_increment_valid_witness :
  ∃ loaded load_program load,
    load_persistables_for_increment (Examples.checkpoint_env []) "ckpt"
      (PyProgram Examples.trainer_program) "emb" "ckpt/emb_table" Examples.idle
    = ({| history := history Examples.idle ++ [LoadVars "ckpt" loaded; Run load_program] |},
       Return tt)
    ∧ (∀ v, v ∈ loaded
            ↔ v ∈ list_vars Examples.trainer_program ∧ checkpoint_var v ∧ name v ≠ "emb")
    ∧ vars (global_block load_program) = ∅
    ∧ ops (global_block load_program) = [load]
    ∧ sub_blocks load_program = []
    ∧ op_type load = "load"
    ∧ inputs load = ∅
    ∧ outputs load = {[ "Out" := [name (Examples.dense "emb")] ]}
    ∧ attrs load = {[ "file_path" := AStr "ckpt/emb_table" ]}.
Proof.
  apply (load_persistables_for_increment_valid (Examples.checkpoint_env []) "ckpt"
           Examples.trainer_program "emb" "ckpt/emb_table" Examples.idle
           (Examples.dense "emb")); reflexivity.
Defined.

(** C8, as amended.  [load_persistables_for_increment] raises
    ValueError exactly when [dirname] is not an existing directory, or
    [lookup_table_var_path] does not exist, or [program] is not a
    Program, or the global block of the program has no variable named
    [lookup_table_var].  The first three checks come before any
    loading: when one of them fails the executor is left as it was. *)
Theorem load_persistables_for_increment_ValueError
    env dirname program lookup_table_var lookup_table_var_path e :
  ((load_persistables_for_increment env dirname program lookup_table_var
      lookup_table_var_path e).2 = Raise ValueError
   ↔ isdir env dirname = false
     ∨ path_exists env lookup_table_var_path = false
     ∨ (∀ p, program ≠ PyProgram p)
     ∨ ∃ p, program = PyProgram p
            ∧ vars (global_block p) !! lookup_table_var = None)
  ∧ (isdir env dirname = false
     ∨ path_exists env lookup_table_var_path = false
     ∨ (∀ p, program ≠ PyProgram p)
     ↔ load_persistables_for_increment env dirname program lookup_table_var
         lookup_table_var_path e
       = (e, Raise ValueError)).
Proof.
  unfold load_persistables_for_increment.
  destruct (isdir env dirname) eqn:Hdir; simpl; [| split; split; auto].
  destruct (path_exists env lookup_table_var_path) eqn:Hfile; simpl;
    [| split; split; auto].
  destruct program as [|p|b]; simpl.
  - split; split; auto.
    all: intros _; do 2 right; try left; intros p; discriminate.
  - unfold mbind, M_bind. rewrite _load_persistable_vars_run.
    destruct (vars (global_block p) !! lookup_table_var) as [emb_var|] eqn:Hvar.
    + rewrite (increment_load_program_run _ _ _ emb_var) by done. simpl.
      split; split; try done.
      * intros [? | [? | [H | (q & Hq & Hnone)]]]; try done.
        -- by destruct (H p).
        -- injection Hq as <-. congruence.
      * intros [? | [? | H]]; try done. by destruct (H p).
    + rewrite increment_load_program_missing by done. simpl.
      split; split; try done.
      * intros _. do 3 right. eauto.
      * intros [? | [? | H]]; try done. by destruct (H p).
      * intros H. injection H as H. exfalso.
        apply (f_equal history) in H. simpl in H.
        apply (f_equal length) in H. rewrite length_app in H. simpl in H. lia.
  - split; split; auto.
    all: intros _; do 2 right; try left; intros p; discriminate.
Qed.

(** C8, as stated, fails: with an existing directory, an existing table
    file and a Program that does not declare the table variable, the
    ValueError comes from the block's variable lookup, after the
    checkpoint variables have been requested from the executor. *)
Lemma load_persistables_for_increment_ValueError_after_loading :
  let call :=
    load_persistables_for_increment (Examples.checkpoint_env []) "ckpt"
      (PyProgram Examples.trainer_program) "absent" "ckpt/emb_table" Examples.idle in
  call.2 = Raise ValueError
  ∧ call.1 ≠ Examples.idle
  ∧ ¬ (call.2 = Raise ValueError
       ↔ isdir (Examples.checkpoint_env []) "ckpt" = false
         ∨ path_exists (Examples.checkpoint_env []) "ckpt/emb_table" = false
         ∨ (∀ p, PyProgram Examples.trainer_program ≠ PyProgram p)).
Proof.
  split; [reflexivity | split].
  - discriminate.
  - intros [H _]. destruct (H eq_refl) as [? | [? | Hp]]; try discriminate.
    by destruct (Hp Examples.trainer_program).
Qed.

End Increment.

(** * [load_persistables_for_inference] *)

Section Inference.

Lemma select_emb_files_spec emb_var_name entries f :
  f ∈ ForInference.select_emb_files emb_var_name entries
  ↔ f ∈ entries ∧ contains emb_var_name f.
Proof.
  unfold ForInference.select_emb_files.
  rewrite list_elem_of_filter, str_in_spec. tauto.
Qed.

(** Some entry is selected exactly when the name of some entry contains
    the table's name. *)
Lemma select_emb_files_nonempty emb_var_name entries :
  ForInference.select_emb_files emb_var_name entries ≠ []
  ↔ ∃ f, f ∈ entries ∧ contains emb_var_name f.
Proof.
  split.
  - intros H.
    destruct (ForInference.select_emb_files emb_var_name entries) as [|f l] eqn:E;
      [done |].
    exists f. apply select_emb_files_spec. rewrite E. left.
  - intros (f & Hf) E. apply select_emb_files_spec in Hf.
    rewrite E in Hf. by apply not_elem_of_nil in Hf.
Qed.

(** The 'sum' operator is built when it has an input, and refused
    otherwise; the 'delete_var' operator is always built. *)
Lemma make_operator_sum sums emb_var :
  sums ≠ [] →
  make_operator (ForInference.sum_op sums emb_var)
  = Return {| op_type := "sum";
              inputs := {[ "X" := name <$> sums ]};
              outputs := {[ "Out" := [name emb_var] ]};
              attrs := ∅ |}.
Proof.
  intros H. destruct sums as [|v sums]; [done |]. reflexivity.
Qed.

Lemma make_operator_sum_empty emb_var :
  make_operator (ForInference.sum_op [] emb_var) = Raise EnforceNotMet.
Proof. reflexivity. Qed.

Lemma make_operator_delete_var sums :
  make_operator (ForInference.delete_var_op sums)
  = Return {| op_type := "delete_var";
              inputs := {[ "X" := name <$> sums ]};
              outputs := ∅;
              attrs := ∅ |}.
Proof. reflexivity. Qed.

(** The shard loop never raises: the names it creates are new, and
    every 'load' operator is built. *)
Lemma load_shards_run ltd emb_var files :
  ∀ i gb sums,
    (∀ j, (i ≤ j)%nat → vars gb !! (name emb_var +:+ "_" +:+ pretty j) = None) →
    ∃ gb',
      ForInference.load_shards ltd emb_var i files gb sums
      = Return (gb', (sums ++ (shard_var emb_var <$> seq i (length files)))%list)
      ∧ ops gb'
        = (ops gb
           ++ ((λ v, stored_load (name v) (path_join ltd (name v)))
                 <$> (shard_var emb_var <$> seq i (length files))))%list
      ∧ ∀ k v, vars gb' !! k = Some v
               ↔ vars gb !! k = Some v
                 ∨ ∃ j, (i ≤ j < i + length files)%nat
                        ∧ k = name emb_var +:+ "_" +:+ pretty j
                        ∧ v = shard_var emb_var j.
Proof.
  induction files as [|f files IH]; intros i gb sums Hfresh.
  - exists gb. simpl. rewrite !app_nil_r. repeat split; try done.
    + by left.
    + intros [? | (j & ? & _)]; [done | lia].
  - cbn [ForInference.load_shards]. unfold create_var, format_indexed.
    rewrite (Hfresh i) by lia. cbn [mbind result_bind].
    unfold append_op. rewrite make_operator_load. cbn [mbind result_bind].
    set (gb1 := {| vars := _; ops := _ |}).
    destruct (IH (S i) gb1 (sums ++ [shard_var emb_var i])%list) as (gb' & Hrun & Hops & Hvars).
    { intros j Hj. subst gb1. simpl. rewrite alter_insert_eq.
      rewrite lookup_insert_ne; [apply Hfresh; lia |].
      intros H. apply (format_indexed_inj (name emb_var)) in H. lia. }
    exists gb'. split; [| split].
    + unfold shard_var in Hrun at 1. rewrite Hrun. simpl. by rewrite <- app_assoc.
    + rewrite Hops. subst gb1. simpl. by rewrite <- app_assoc.
    + intros k v. rewrite Hvars. subst gb1. simpl. rewrite alter_insert_eq.
      split.
      * intros [H | (j & Hj & -> & ->)].
        -- destruct (decide (name emb_var +:+ "_" +:+ pretty i = k)) as [<- | Hne].
           ++ rewrite lookup_insert_eq in H. injection H as <-.
              right. exists i. repeat split; lia || done.
           ++ rewrite lookup_insert_ne in H by done. by left.
        -- right. exists j. repeat split; lia || done.
      * intros [H | (j & Hj & -> & ->)].
        -- left. rewrite lookup_insert_ne; [done |].
           intros <-. rewrite Hfresh in H by lia. done.
        -- destruct (decide (j = i)) as [-> | Hne].
           ++ left. by rewrite lookup_insert_eq.
           ++ right. exists j. repeat split; lia || done.
Qed.

(** [__load_lookup_table_vars] of the inference loader, step by step,
    when some entry is selected. *)
Lemma build_convert_program_run env dirname p tbl emb_var entries :
  isdir env dirname = true →
  vars (global_block p) !! tbl = Some emb_var →
  listdir_entries env (path_join dirname lookup_table_dir) = Some entries →
  ForInference.select_emb_files tbl entries ≠ [] →
  let shards :=
    shard_var emb_var
      <$> seq 0 (length (ForInference.select_emb_files tbl entries)) in
  ∃ convert_program,
    ForInference.build_convert_program env dirname p [tbl] = Return convert_program
    ∧ sub_blocks convert_program = []
    ∧ ops (global_block convert_program)
      = (((λ v, stored_load (name v)
                  (path_join (path_join dirname lookup_table_dir) (name v)))
            <$> shards)
         ++ [ {| op_type := "sum";
                 inputs := {[ "X" := name <$> shards ]};
                 outputs := {[ "Out" := [name emb_var] ]};
                 attrs := ∅ |};
              {| op_type := "delete_var";
                 inputs := {[ "X" := name <$> shards ]};
                 outputs := ∅;
                 attrs := ∅ |} ])%list
    ∧ ∀ k v, vars (global_block convert_program) !! k = Some v
             ↔ (k = name emb_var ∧ v = table_var emb_var)
               ∨ ∃ j, (j < length (ForInference.select_emb_files tbl entries))%nat
                      ∧ k = name emb_var +:+ "_" +:+ pretty j
                      ∧ v = shard_var emb_var j.
Proof.
  intros Hdir Hvar Hls Hsel shards.
  unfold ForInference.build_convert_program, listdir, var.
  rewrite Hdir. simpl. rewrite Hvar. simpl. rewrite Hls. simpl.
  unfold create_var. simpl. rewrite lookup_empty. simpl.
  set (gb0 := set_type _ _ _).
  destruct (load_shards_run (path_join dirname lookup_table_dir)
              (table_var emb_var) (ForInference.select_emb_files tbl entries)
              0 gb0 []) as (gb' & Hrun & Hops & Hvars).
  { intros j _. subst gb0. simpl. rewrite alter_insert_eq.
    rewrite lookup_insert_ne; [done |]. intros H. symmetry in H.
    by apply (format_indexed_ne (name emb_var) j) in H. }
  unfold table_var in Hrun at 1. rewrite Hrun. cbn [mbind result_bind app].
  unfold append_op.
  rewrite (make_operator_sum _ (table_var emb_var)).
  2:{ intros H. apply fmap_nil_inv in H.
      destruct (ForInference.select_emb_files tbl entries); [done | discriminate]. }
  simpl. rewrite map_filter_empty.
  eexists. split; [reflexivity |]. simpl. split; [done |]. split.
  - rewrite Hops. subst gb0. simpl. by rewrite <- app_assoc.
  - intros k v. rewrite Hvars. subst gb0. simpl. rewrite alter_insert_eq.
    split.
    + intros [H | (j & Hj & -> & ->)].
      * left. destruct (decide (name emb_var = k)) as [<- | Hne].
        -- rewrite lookup_insert_eq in H. by injection H as <-.
        -- rewrite lookup_insert_ne in H by done. done.
      * right. exists j. repeat split; lia || done.
    + intros [[-> ->] | (j & Hj & -> & ->)].
      * left. by rewrite lookup_insert_eq.
      * right. exists j. repeat split; lia || done.
Qed.

(** When no entry is selected the 'sum' operator has no input: it is
    refused, and no program is built. *)
Lemma build_convert_program_no_shard env dirname p tbl emb_var entries :
  isdir env dirname = true →
  vars (global_block p) !! tbl = Some emb_var →
  listdir_entries env (path_join dirname lookup_table_dir) = Some entries →
  ForInference.select_emb_files tbl entries = [] →
  ForInference.build_convert_program env dirname p [tbl] = Raise EnforceNotMet.
Proof.
  intros Hdir Hvar Hls Hsel.
  unfold ForInference.build_convert_program, listdir, var.
  rewrite Hdir. simpl. rewrite Hvar. simpl. rewrite Hls. simpl.
  unfold create_var. simpl. rewrite lookup_empty. simpl.
  rewrite Hsel. reflexivity.
Qed.

Lemma build_convert_program_missing env dirname p tbl :
  isdir env dirname = true →
  vars (global_block p) !! tbl = None →
  ForInference.build_convert_program env dirname p [tbl] = Raise ValueError.
Proof.
  intros Hdir Hvar. unfold ForInference.build_convert_program, var.
  rewrite Hdir. simpl. by rewrite Hvar.
Qed.

Lemma build_convert_program_unlisted env dirname p tbl emb_var :
  isdir env dirname = true →
  vars (global_block p) !! tbl = Some emb_var →
  listdir_entries env (path_join dirname lookup_table_dir) = None →
  ForInference.build_convert_program env dirname p [tbl] = Raise OSError.
Proof.
  intros Hdir Hvar Hls. unfold ForInference.build_convert_program, var, listdir.
  rewrite Hdir. simpl. rewrite Hvar. simpl. by rewrite Hls.
Qed.

(** The loader once the program to use is settled. *)
Lemma load_persistables_for_inference_resolved env dirname program tbl e p :
  isdir env dirname = true →
  resolve_program env dirname program = Return p →
  load_persistables_for_inference env dirname program tbl e
  = match ForInference.build_convert_program env dirname p [tbl] with
    | Return convert_program =>
        ({| history := history e
              ++ [LoadVars dirname
                    (filter (λ v, is_valid [tbl] v = true) (list_vars p));
                  Run convert_program] |},
         Return p)
    | Raise ex =>
        ({| history := history e
              ++ [LoadVars dirname
                    (filter (λ v, is_valid [tbl] v = true) (list_vars p))] |},
         Raise ex)
    end.
Proof.
  intros Hdir Hres. unfold load_persistables_for_inference.
  rewrite Hdir. simpl. unfold mbind at 1, M_bind at 1, lift at 1. rewrite Hres.
  unfold mbind at 1, M_bind at 1. rewrite _load_persistable_vars_run.
  unfold ForInference.__load_lookup_table_vars.
  unfold mbind, M_bind, lift, modify, run, mret, M_ret.
  destruct (ForInference.build_convert_program env dirname p [tbl]); simpl; [| done].
  by rewrite <- app_assoc.
Qed.

(** C5, as amended.  With an existing directory, a program that
    declares the table variable under its own name and a listable
    "__lookup_table__" subdirectory in which the name of some entry
    contains the table's name, [load_persistables_for_inference] selects
    the entries whose name contains the table's name, in the order of
    the listing, and builds a program.  Its global block declares one persistable SELECTED_ROWS
    variable named "<table name>_<j>" for the j-th selected entry and one
    under the table's name, all with the shape and dtype of the program's
    table variable.  Its operators are, in this order, one 'load' per
    shard variable, a 'sum' of the shard variables into the table
    variable and a 'delete_var' of the shard variables.  The program is
    run on the executor and the program given is returned. *)
Theorem load_persistables_for_inference_builds
    env dirname program tbl e p emb_var entries :
  isdir env dirname = true →
  resolve_program env dirname program = Return p →
  vars (global_block p) !! tbl = Some emb_var →
  name emb_var = tbl →
  listdir_entries env (path_join dirname "__lookup_table__") = Some entries →
  (∃ f, f ∈ entries ∧ contains tbl f) →
  let selected := ForInference.select_emb_files tbl entries in
  let result_var :=
    {| name := tbl; shape := shape emb_var; dtype := dtype emb_var;
       type := SELECTED_ROWS; persistable := true |} in
  let shard := λ j : nat,
    {| name := tbl +:+ "_" +:+ pretty j; shape := shape emb_var;
       dtype := dtype emb_var; type := SELECTED_ROWS; persistable := true |} in
  let shards := shard <$> seq 0 (length selected) in
  (∀ f, f ∈ selected ↔ f ∈ entries ∧ contains tbl f)
  ∧ selected `sublist_of` entries
  ∧ ∃ loaded convert_program,
      load_persistables_for_inference env dirname program tbl e
      = ({| history := history e ++ [LoadVars dirname loaded; Run convert_program] |},
         Return p)
      ∧ (∀ k v, vars (global_block convert_program) !! k = Some v
                ↔ (k = tbl ∧ v = result_var)
                  ∨ ∃ j, (j < length selected)%nat
                         ∧ k = tbl +:+ "_" +:+ pretty j ∧ v = shard j)
      ∧ ops (global_block convert_program)
        = (((λ v, {| op_type := "load";
                     inputs := ∅;
                     outputs := {[ "Out" := [name v] ]};
                     attrs := {[ "file_path" :=
                                   AStr (path_join
                                           (path_join dirname "__lookup_table__")
                                           (name v)) ]} |})
              <$> shards)
           ++ [ {| op_type := "sum";
                   inputs := {[ "X" := name <$> shards ]};
                   outputs := {[ "Out" := [tbl] ]};
                   attrs := ∅ |};
                {| op_type := "delete_var";
                   inputs := {[ "X" := name <$> shards ]};
                   outputs := ∅;
                   attrs := ∅ |} ])%list.
Proof.
  intros Hdir Hres Hvar Hname Hls Hsome selected result_var shard shards.
  split; [intros f; apply select_emb_files_spec |].
  split; [apply sublist_filter |].
  apply select_emb_files_nonempty in Hsome.
  destruct (build_convert_program_run env dirname p tbl emb_var entries
              Hdir Hvar Hls Hsome) as (cp & Hrun & _ & Hops & Hvars).
  assert (Hshard : ∀ j, shard_var emb_var j = shard j).
  { intros j. unfold shard_var. subst shard. simpl. by rewrite Hname. }
  assert (Hshards : shard_var emb_var <$> seq 0 (length selected) = shards).
  { apply list_fmap_ext. intros ? j _. apply Hshard. }
  eexists. exists cp. split; [| split].
  - rewrite (load_persistables_for_inference_resolved _ _ _ _ _ p) by done.
    by rewrite Hrun.
  - intros k v. rewrite Hvars, Hname. unfold table_var. rewrite Hname.
    fold result_var. split.
    + intros [H | (j & Hj & -> & ->)]; [by left |].
      right. exists j. by rewrite Hshard.
    + intros [H | (j & Hj & -> & ->)]; [by left |].
      right. exists j. by rewrite Hshard.
  - rewrite Hops. fold selected. rewrite Hshards, Hname. reflexivity.
Qed.

(** The theorem on a directory with two shards and a stray file. *)
Lemma load_persistables_for_inference_builds_witness :
  let env := Examples.checkpoint_env ["emb_0"; "emb_1"; "README"] in
  let emb_var := Examples.dense "emb" in
  let selected := ForInference.select_emb_files "emb" ["emb_0"; "emb_1"; "README"] in
  let result_var :=
    {| name := "emb"; shape := shape emb_var; dtype := dtype emb_var;
       type := SELECTED_ROWS; persistable := true |} in
  let shard := λ j : nat,
    {| name := "emb" +:+ "_" +:+ pretty j; shape := shape emb_var;
       dtype := dtype emb_var; type := SELECTED_ROWS; persistable := true |} in
  let shards := shard <$> seq 0 (length selected) in
  (∀ f, f ∈ selected ↔ f ∈ ["emb_0"; "emb_1"; "README"] ∧ contains "emb" f)
  ∧ selected `sublist_of` ["emb_0"; "emb_1"; "README"]
  ∧ ∃ loaded convert_program,
      load_persistables_for_inference env "ckpt"
        (PyProgram Examples.trainer_program) "emb" Examples.idle
      = ({| history := history Examples.idle
              ++ [LoadVars "ckpt" loaded; Run convert_program] |},
         Return Examples.trainer_program)
      ∧ (∀ k v, vars (global_block convert_program) !! k = Some v
                ↔ (k = "emb" ∧ v = result_var)
                  ∨ ∃ j, (j < length selected)%nat
                         ∧ k = "emb" +:+ "_" +:+ pretty j ∧ v = shard j)
      ∧ ops (global_block convert_program)
        = (((λ v, {| op_type := "load";
                     inputs := ∅;
                     outputs := {[ "Out" := [name v] ]};
                     attrs := {[ "file_path" :=
                                   AStr (path_join
                                           (path_join "ckpt" "__lookup_table__")
                                           (name v)) ]} |})
              <$> shards)
           ++ [ {| op_type := "sum";
                   inputs := {[ "X" := name <$> shards ]};
                   outputs := {[ "Out" := ["emb"] ]};
                   attrs := ∅ |};
                {| op_type := "delete_var";
                   inputs := {[ "X" := name <$> shards ]};
                   outputs := ∅;
                   attrs := ∅ |} ])%list.
Proof.
  apply (load_persistables_for_inference_builds
           (Examples.checkpoint_env ["emb_0"; "emb_1"; "README"]) "ckpt"
           (PyProgram Examples.trainer_program) "emb" Examples.idle
           Examples.trainer_program (Examples.dense "emb")
           ["emb_0"; "emb_1"; "README"]); try reflexivity.
  exists "emb_0". split; [left | by exists EmptyString, "_0"].
Defined.

(** C5, as stated, fails.  When the "__lookup_table__" directory holds
    no entry whose name contains the table's name, the 'sum' operator
    would have no input: it is refused, the call raises, no program is
    run on the executor and nothing is returned.  And when [dirname] is
    not a directory the call raises ValueError at once. *)
Lemma load_persistables_for_inference_raises_on_no_shard :
  (let env := Examples.checkpoint_env ["README"] in
   let call :=
     load_persistables_for_inference env "ckpt"
       (PyProgram Examples.trainer_program) "emb" Examples.idle in
   isdir env "ckpt" = true
   ∧ is_Some (vars (global_block Examples.trainer_program) !! "emb")
   ∧ listdir_entries env "ckpt/__lookup_table__" = Some ["README"]
   ∧ ForInference.select_emb_files "emb" ["README"] = []
   ∧ (∃ ex, call.2 = Raise ex)
   ∧ programs_run call.1 = []
   ∧ ¬ ∃ q, call.2 = Return q)
  ∧ (let call :=
       load_persistables_for_inference Examples.empty_env "ckpt"
         (PyProgram Examples.trainer_program) "emb" Examples.idle in
     call = (Examples.idle, Raise ValueError)).
Proof.
  assert (H : (load_persistables_for_inference
                 (Examples.checkpoint_env ["README"]) "ckpt"
                 (PyProgram Examples.trainer_program) "emb" Examples.idle).2
              = Raise EnforceNotMet) by (vm_compute; reflexivity).
  cbv zeta. split; [| reflexivity].
  repeat split; try (vm_compute; reflexivity).
  - by eexists.
  - by eexists.
  - rewrite H. intros [q Hq]. discriminate.
Qed.

Lemma op_load_path_stored_load out path :
  op_load_path (stored_load out path) = Some path.
Proof. reflexivity. Qed.

Lemma omap_load_paths (path_of : Variable_ → string) vs rest :
  omap op_load_path (((λ v, stored_load (name v) (path_of v)) <$> vs) ++ rest)%list
  = ((path_of <$> vs) ++ omap op_load_path rest)%list.
Proof.
  induction vs as [|v vs IH]; [done |].
  cbn [fmap list_fmap app omap list_omap].
  rewrite op_load_path_stored_load. by rewrite IH.
Qed.

(** C6, as amended.  When the name of some entry of the
    "__lookup_table__" directory contains the table's name, one program
    is run, and its 'load' operator for the i-th selected entry
    (counting from 0) reads the file "<table name>_<i>" of that
    directory, whatever the entry is called; the files read are the
    files found when the selected entries are, in some order,
    "<table name>_0", ..., "<table name>_<n-1>". *)
Theorem load_persistables_for_inference_load_paths
    env dirname program tbl e p emb_var entries :
  isdir env dirname = true →
  resolve_program env dirname program = Return p →
  vars (global_block p) !! tbl = Some emb_var →
  name emb_var = tbl →
  listdir_entries env (path_join dirname "__lookup_table__") = Some entries →
  (∃ f, f ∈ entries ∧ contains tbl f) →
  let lookup_table_dirname := path_join dirname "__lookup_table__" in
  let selected := ForInference.select_emb_files tbl entries in
  let call := load_persistables_for_inference env dirname program tbl e in
  ∃ convert_program,
    programs_run call.1 = (programs_run e ++ [convert_program])%list
    ∧ load_paths convert_program
      = (λ i : nat, path_join lookup_table_dirname (tbl +:+ "_" +:+ pretty i))
          <$> seq 0 (length selected)
    ∧ (selected ≡ₚ (λ i : nat, tbl +:+ "_" +:+ pretty i) <$> seq 0 (length selected) →
       ∀ f, f ∈ load_paths convert_program
            ↔ f ∈ path_join lookup_table_dirname <$> selected).
Proof.
  intros Hdir Hres Hvar Hname Hls Hsome ltd selected call.
  apply select_emb_files_nonempty in Hsome.
  destruct (build_convert_program_run env dirname p tbl emb_var entries
              Hdir Hvar Hls Hsome) as (cp & Hrun & _ & Hops & _).
  assert (Hpaths : load_paths cp
                   = (λ i : nat, path_join ltd (tbl +:+ "_" +:+ pretty i))
                       <$> seq 0 (length selected)).
  { unfold load_paths. rewrite Hops, omap_load_paths. simpl.
    rewrite app_nil_r, <- list_fmap_compose. apply list_fmap_ext.
    intros i j _. simpl. by rewrite Hname. }
  exists cp. split; [| split; [done |]].
  - subst call.
    rewrite (load_persistables_for_inference_resolved _ _ _ _ _ p) by done.
    rewrite Hrun. unfold programs_run. simpl. by rewrite omap_app.
  - intros Hperm f. rewrite Hpaths.
    pose proof (fmap_Permutation (path_join ltd) _ _ Hperm) as Hp.
    rewrite (elem_of_Permutation_proper _ _ _ Hp).
    rewrite <- list_fmap_compose. reflexivity.
Qed.

(** The theorem on a directory that holds the shards "emb_1", "emb_0":
    the files read are the files found. *)
Lemma load_persistables_for_inference_load_paths_witness :
  let env := Examples.checkpoint_env ["emb_1"; "emb_0"; "README"] in
  let selected := ForInference.select_emb_files "emb" ["emb_1"; "emb_0"; "README"] in
  let call :=
    load_persistables_for_inference env "ckpt"
      (PyProgram Examples.trainer_program) "emb" Examples.idle in
  ∃ convert_program,
    programs_run call.1 = (programs_run Examples.idle ++ [convert_program])%list
    ∧ load_paths convert_program
      = (λ i : nat, path_join (path_join "ckpt" "__lookup_table__")
                      ("emb" +:+ "_" +:+ pretty i))
          <$> seq 0 (length selected)
    ∧ ∀ f, f ∈ load_paths convert_program
           ↔ f ∈ path_join (path_join "ckpt" "__lookup_table__") <$> selected.
Proof.
  destruct (load_persistables_for_inference_load_paths
              (Examples.checkpoint_env ["emb_1"; "emb_0"; "README"]) "ckpt"
              (PyProgram Examples.trainer_program) "emb" Examples.idle
              Examples.trainer_program (Examples.dense "emb")
              ["emb_1"; "emb_0"; "README"] eq_refl eq_refl eq_refl eq_refl eq_refl
              (ex_intro _ "emb_1"
                 (conj (list_elem_of_here _ _)
                    (ex_intro _ EmptyString (ex_intro _ "_1" eq_refl)))))
    as (cp & H1 & H2 & H3).
  exists cp. refine (conj H1 (conj H2 (H3 _))).
  apply perm_swap.
Defined.

(** C6, as stated, fails: the directory holds the single matching entry
    "emb.part", and the 'load' operator reads "emb_0". *)
Lemma load_persistables_for_inference_reads_other_file :
  let env := Examples.checkpoint_env ["emb.part"] in
  let call :=
    load_persistables_for_inference env "ckpt"
      (PyProgram Examples.trainer_program) "emb" Examples.idle in
  let found :=
    path_join "ckpt/__lookup_table__"
      <$> ForInference.select_emb_files "emb" ["emb.part"] in
  found = ["ckpt/__lookup_table__/emb.part"]
  ∧ load_paths <$> programs_run call.1 = [["ckpt/__lookup_table__/emb_0"]]
  ∧ ¬ (∀ f, f ∈ mjoin (load_paths <$> programs_run call.1) ↔ f ∈ found).
Proof.
  assert (H1 : path_join "ckpt/__lookup_table__"
                 <$> ForInference.select_emb_files "emb" ["emb.part"]
               = ["ckpt/__lookup_table__/emb.part"]) by reflexivity.
  assert (H2 : load_paths
                 <$> programs_run
                       (load_persistables_for_inference
                          (Examples.checkpoint_env ["emb.part"]) "ckpt"
                          (PyProgram Examples.trainer_program) "emb" Examples.idle).1
               = [["ckpt/__lookup_table__/emb_0"]]) by (vm_compute; reflexivity).
  cbv zeta. split; [done | split; [done |]].
  rewrite H1, H2. simpl. intros H.
  specialize (H "ckpt/__lookup_table__/emb_0").
  rewrite !list_elem_of_singleton in H.
  destruct H as [H _]. specialize (H eq_refl). discriminate.
Qed.

Lemma resolve_program_falsy env dirname program s p :
  truthy program = false →
  file_contents env (path_join dirname model_filename) = Some s →
  parsed_program env s = Some p →
  resolve_program env dirname program
  = if _is_program_version_supported env (_version p) then Return p
    else Raise ValueError.
Proof.
  intros Hfalsy Hfile Hparse. unfold resolve_program, read_file, parse_from_string.
  rewrite Hfalsy, Hfile. simpl. rewrite Hparse. simpl.
  by destruct (_is_program_version_supported env (_version p)).
Qed.

(** C7, as amended.  Called with a falsy [program] and an existing
    directory whose "__model__" file can be read and parsed, the loader
    raises ValueError, before anything is loaded, when the version of
    the parsed program is unsupported.  When it is supported, the
    checkpoint variables of the parsed program are requested; a
    ValueError is then raised exactly when that program does not
    declare the table variable, nothing but the parsed program is ever
    returned, and it is returned when the table variable is declared,
    the "__lookup_table__" directory can be listed and the name of one of
    its entries contains the table's name. *)
Theorem load_persistables_for_inference_falsy_program
    env dirname program tbl e s p :
  truthy program = false →
  isdir env dirname = true →
  file_contents env (path_join dirname "__model__") = Some s →
  parsed_program env s = Some p →
  let call := load_persistables_for_inference env dirname program tbl e in
  (_is_program_version_supported env (_version p) = false →
   call = (e, Raise ValueError))
  ∧ (_is_program_version_supported env (_version p) = true →
     (∃ rest, history call.1
              = (history e
                 ++ LoadVars dirname
                      (filter (λ v, is_valid [tbl] v = true) (list_vars p))
                    :: rest)%list)
     ∧ (call.2 = Raise ValueError ↔ vars (global_block p) !! tbl = None)
     ∧ (∀ q, call.2 = Return q → q = p)
     ∧ (is_Some (vars (global_block p) !! tbl) →
        ∀ entries,
          listdir_entries env (path_join dirname "__lookup_table__") = Some entries →
          (∃ f, f ∈ entries ∧ contains tbl f) →
          call.2 = Return p)).
Proof.
  intros Hfalsy Hdir Hfile Hparse call.
  pose proof (resolve_program_falsy env dirname program s p Hfalsy Hfile Hparse) as Hres.
  split; intros Hsup; rewrite Hsup in Hres.
  - subst call. unfold load_persistables_for_inference.
    rewrite Hdir. simpl. unfold mbind, M_bind, lift. by rewrite Hres.
  - subst call.
    rewrite (load_persistables_for_inference_resolved _ _ _ _ _ p) by done.
    destruct (vars (global_block p) !! tbl) as [emb_var|] eqn:Hvar.
    + destruct (listdir_entries env (path_join dirname lookup_table_dir))
        as [entries|] eqn:Hls.
      * destruct (decide (ForInference.select_emb_files tbl entries = [])) as [Hsel | Hsel].
        -- rewrite (build_convert_program_no_shard _ _ _ _ emb_var entries) by done.
           simpl. repeat split; try done; first [by eexists | idtac].
           intros _ entries' Hls' Hsome. exfalso.
           change (path_join dirname "__lookup_table__")
             with (path_join dirname lookup_table_dir) in Hls'.
           rewrite Hls in Hls'. injection Hls' as <-.
           by apply select_emb_files_nonempty in Hsome.
        -- destruct (build_convert_program_run env dirname p tbl emb_var entries
                       Hdir Hvar Hls Hsel) as (cp & -> & _).
           simpl. repeat split; try done; first [by eexists | intros q H; by injection H].
      * rewrite (build_convert_program_unlisted _ _ _ _ emb_var) by done.
        simpl. repeat split; try done; first [by eexists | idtac].
        intros _ entries' Hls'.
        change (path_join dirname "__lookup_table__")
          with (path_join dirname lookup_table_dir) in Hls'.
        congruence.
    + rewrite build_convert_program_missing by done.
      simpl. repeat split; try done; first [by eexists | by intros [? ?]].
Qed.

(** The theorem on the example checkpoint directory, whose "__model__"
    file holds the trainer program: read by a framework that supports
    the version of the stored program, and by one that does not. *)
Lemma load_persistables_for_inference_falsy_program_witness :
  (let env := Examples.checkpoint_env ["emb_0"] in
   let p := Examples.trainer_program in
   let call := load_persistables_for_inference env "ckpt" PyNone "emb" Examples.idle in
   (∃ rest, history call.1
            = (history Examples.idle
               ++ LoadVars "ckpt"
                    (filter (λ v, is_valid ["emb"] v = true) (list_vars p))
                  :: rest)%list)
   ∧ (call.2 = Raise ValueError ↔ vars (global_block p) !! "emb" = None)
   ∧ (∀ q, call.2 = Return q → q = p)
   ∧ call.2 = Return p)
  ∧ (let env := Examples.unsupported_env ["emb_0"] in
     load_persistables_for_inference env "ckpt" PyNone "emb" Examples.idle
     = (Examples.idle, Raise ValueError)).
Proof.
  split.
  - destruct (load_persistables_for_inference_falsy_program
                (Examples.checkpoint_env ["emb_0"]) "ckpt" PyNone "emb" Examples.idle
                "model" Examples.trainer_program eq_refl eq_refl eq_refl eq_refl)
      as [_ H].
    destruct (H eq_refl) as (H1 & H2 & H3 & H4).
    refine (conj H1 (conj H2 (conj H3 (H4 _ ["emb_0"] eq_refl _)))).
    + by eexists.
    + exists "emb_0". split; [left | by exists EmptyString, "_0"].
  - exact (proj1 (load_persistables_for_inference_falsy_program
                    (Examples.unsupported_env ["emb_0"]) "ckpt" PyNone "emb"
                    Examples.idle "model" Examples.trainer_program
                    eq_refl eq_refl eq_refl eq_refl) eq_refl).
Defined.

(** C7, as stated, fails: with a falsy [program] and a [dirname] that
    is not a directory, ValueError is raised although no program was
    parsed, let alone one of an unsupported version. *)
Lemma load_persistables_for_inference_ValueError_without_model :
  let env := Examples.empty_env in
  let call := load_persistables_for_inference env "ckpt" PyNone "emb" Examples.idle in
  call = (Examples.idle, Raise ValueError)
  ∧ ¬ (call.2 = Raise ValueError
       ↔ ∃ s p, file_contents env (path_join "ckpt" model_filename) = Some s
                ∧ parsed_program env s = Some p
                ∧ _is_program_version_supported env (_version p) = false).
Proof.
  split; [reflexivity |].
  intros [H _]. destruct (H eq_refl) as (s & p & Hs & _). discriminate.
Qed.

End Inference.

(** * [__get_prefetch_op_tuples] *)

Section Scan.

Lemma getitem_fmap {A B} (f : A → B) (l : list A) (i : Z) :
  getitem (f <$> l) i
  = match getitem l i with Return x => Return (f x) | Raise e => Raise e end.
Proof.
  unfold getitem. rewrite length_fmap.
  repeat case_bool_decide; try done; rewrite list_lookup_fmap;
    by destruct (l !! _).
Qed.

Lemma getitem_elem_of {A} (l : list A) (i : Z) x :
  getitem l i = Return x → x ∈ l.
Proof.
  unfold getitem.
  repeat case_bool_decide; try done;
    destruct (l !! _) eqn:E; try done;
    intros [= <-]; by eapply list_elem_of_lookup_2.
Qed.

Lemma loop_cons b op_types i rest :
  __get_prefetch_op_tuples_loop b op_types (i :: rest)
  = (found ← probe op_types i;
     if found : bool then collect_tuple b i
     else __get_prefetch_op_tuples_loop b op_types rest).
Proof.
  simpl. unfold probe, collect_tuple.
  destruct (getitem op_types i) as [t|]; simpl; [| done].
  case_bool_decide; [| done].
  destruct (getitem op_types (i - 1)) as [t_prev|]; simpl; [| done].
  case_bool_decide; [| done].
  destruct (getitem op_types (i + 1)) as [t_next|]; simpl; [| done].
  by case_bool_decide.
Qed.

(** The scan returns what it collects at the first index that passes
    the test. *)
Lemma loop_range b op_types (target : nat) :
  ∀ n k,
    (∀ j, (k ≤ j < target)%nat → probe op_types (Z.of_nat j) = Return false) →
    probe op_types (Z.of_nat target) = Return true →
    (k ≤ target < k + n)%nat →
    __get_prefetch_op_tuples_loop b op_types (Z.of_nat <$> seq k n)
    = collect_tuple b (Z.of_nat target).
Proof.
  induction n as [|n IH]; intros k Hbefore Hhit Hk; [lia |].
  cbn [seq fmap list_fmap]. rewrite loop_cons.
  destruct (decide (k = target)) as [-> | Hne].
  - by rewrite Hhit.
  - rewrite Hbefore by lia. simpl. apply IH; [| done | lia].
    intros j Hj. apply Hbefore. lia.
Qed.

Lemma getitem_in_range {A} (l : list A) (i : Z) :
  (- Z.of_nat (length l) ≤ i < Z.of_nat (length l))%Z →
  ∃ x, getitem l i = Return x.
Proof.
  intros Hi. unfold getitem.
  destruct (decide (0 ≤ i)%Z) as [Hpos | Hneg].
  - rewrite bool_decide_eq_true_2 by lia.
    destruct (lookup_lt_is_Some_2 l (Z.to_nat i)) as [x ->]; [lia | eauto].
  - rewrite bool_decide_eq_false_2 by lia.
    rewrite bool_decide_eq_true_2 by lia.
    destruct (lookup_lt_is_Some_2 l (Z.to_nat (Z.of_nat (length l) + i)))
      as [x ->]; [lia | eauto].
Qed.

Lemma probe_no_raise op_types (i : Z) :
  (- Z.of_nat (length op_types) ≤ i - 1)%Z →
  (i + 1 < Z.of_nat (length op_types))%Z →
  ∃ found, probe op_types i = Return found.
Proof.
  intros Hlo Hhi. unfold probe.
  destruct (getitem_in_range op_types i) as [t ->]; [lia |]. simpl.
  case_bool_decide; [| eauto].
  destruct (getitem_in_range op_types (i - 1)) as [t' ->]; [lia |]. simpl.
  case_bool_decide; [| eauto].
  destruct (getitem_in_range op_types (i + 1)) as [t'' ->]; [lia |]. simpl.
  eauto.
Qed.

Lemma triple_at_length op_types s :
  triple_at op_types s → (S (S s) < length op_types)%nat.
Proof. intros (_ & _ & H). by apply lookup_lt_Some in H. Qed.

Lemma probe_hit op_types s :
  triple_at op_types s → probe op_types (Z.of_nat (S s)) = Return true.
Proof.
  intros (H1 & H2 & H3). unfold probe.
  rewrite (getitem_nat _ _ _ H2). simpl.
  replace (Z.of_nat (S s) - 1)%Z with (Z.of_nat s) by lia.
  rewrite (getitem_nat _ _ _ H1). simpl.
  replace (Z.of_nat (S s) + 1)%Z with (Z.of_nat (S (S s))) by lia.
  by rewrite (getitem_nat _ _ _ H3).
Qed.

Lemma probe_miss op_types j :
  (S (S j) < length op_types)%nat →
  ¬ triple_at op_types j →
  probe op_types (Z.of_nat (S j)) = Return false.
Proof.
  intros Hlen Hno. unfold probe.
  destruct (lookup_lt_is_Some_2 op_types j) as [t1 H1]; [lia |].
  destruct (lookup_lt_is_Some_2 op_types (S j)) as [t2 H2]; [lia |].
  destruct (lookup_lt_is_Some_2 op_types (S (S j))) as [t3 H3]; [lia |].
  rewrite (getitem_nat _ _ _ H2). simpl.
  case_bool_decide as E2; [| done].
  replace (Z.of_nat (S j) - 1)%Z with (Z.of_nat j) by lia.
  rewrite (getitem_nat _ _ _ H1). simpl.
  case_bool_decide as E1; [| done].
  replace (Z.of_nat (S j) + 1)%Z with (Z.of_nat (S (S j))) by lia.
  rewrite (getitem_nat _ _ _ H3). simpl.
  case_bool_decide as E3; [| done].
  destruct Hno. unfold triple_at. by subst.
Qed.

Lemma probe_miss_0 op_types :
  (2 ≤ length op_types)%nat →
  ¬ wrapped_triple op_types →
  probe op_types 0 = Return false.
Proof.
  intros Hlen Hno. unfold probe.
  destruct (lookup_lt_is_Some_2 op_types 0) as [t0 H0]; [lia |].
  destruct (lookup_lt_is_Some_2 op_types 1) as [t1 H1]; [lia |].
  destruct (last op_types) as [tl|] eqn:Hl;
    [| apply last_None in Hl; subst; simpl in Hlen; lia].
  assert (G0 : getitem op_types 0 = Return t0) by exact (getitem_nat _ 0 _ H0).
  assert (G1 : getitem op_types (0 + 1) = Return t1) by exact (getitem_nat _ 1 _ H1).
  assert (Gl : getitem op_types (0 - 1) = Return tl) by exact (getitem_last _ _ Hl).
  rewrite G0. simpl.
  case_bool_decide as E0; [| done].
  rewrite Gl. simpl.
  case_bool_decide as El; [| done].
  rewrite G1. simpl.
  case_bool_decide as E1; [| done].
  destruct Hno. unfold wrapped_triple. by subst.
Qed.

(** With the first sequence at [s], the scan stops at the prefetch
    operator of that sequence. *)
Lemma scan_first b s :
  first_triple_at (op_type <$> ops b) s →
  __get_prefetch_op_tuples_loop b (op_type <$> ops b)
    (range (length (op_type <$> ops b)))
  = collect_tuple b (Z.of_nat (S s)).
Proof.
  intros (Hat & Hfirst & Hwrap).
  pose proof (triple_at_length _ _ Hat) as Hlen.
  unfold range. apply loop_range; [| by apply probe_hit | lia].
  intros [|j] Hj.
  - apply probe_miss_0; [lia | done].
  - apply probe_miss; [lia |]. apply Hfirst. lia.
Qed.

Lemma collect_tuple_at b s o1 o2 o3 ids xs rows outs :
  ops b !! s = Some o1 →
  ops b !! S s = Some o2 →
  ops b !! S (S s) = Some o3 →
  inputs o1 !! "Ids" = Some ids →
  inputs o2 !! "X" = Some xs →
  outputs o2 !! "Out" = Some rows →
  outputs o3 !! "Out" = Some outs →
  collect_tuple b (Z.of_nat (S s))
  = Return (Some (Z.of_nat s, ids, outs, (xs ++ rows)%list)).
Proof.
  intros H1 H2 H3 Hids Hxs Hrows Houts. unfold collect_tuple, input, output.
  replace (Z.of_nat (S s) - 1)%Z with (Z.of_nat s) by lia.
  replace (Z.of_nat (S s) + 1)%Z with (Z.of_nat (S (S s))) by lia.
  rewrite (getitem_nat _ _ _ H1). simpl. rewrite Hids. simpl.
  rewrite (getitem_nat _ _ _ H2). simpl. rewrite Hxs. simpl.
  rewrite Hrows. simpl.
  rewrite (getitem_nat _ _ _ H3). simpl. by rewrite Houts.
Qed.

(** Where the test succeeds, operators that follow their schema let the
    tuple be assembled. *)
Lemma collect_tuple_of_probe b i :
  Forall op_schema (ops b) →
  probe (op_type <$> ops b) i = Return true →
  ∃ t, collect_tuple b i = Return (Some t).
Proof.
  intros Hschema. rewrite Forall_forall in Hschema.
  unfold probe, collect_tuple, input, output. rewrite !getitem_fmap.
  destruct (getitem (ops b) i) as [o2|] eqn:E2; simpl; [| done].
  case_bool_decide as T2; [| done].
  destruct (getitem (ops b) (i - 1)) as [o1|] eqn:E1; simpl; [| done].
  case_bool_decide as T1; [| done].
  destruct (getitem (ops b) (i + 1)) as [o3|] eqn:E3; simpl; [| done].
  intros [= T3%bool_decide_eq_true].
  destruct (Hschema o1 (getitem_elem_of _ _ _ E1)) as (S1 & _ & _).
  destruct (Hschema o2 (getitem_elem_of _ _ _ E2)) as (_ & S2 & _).
  destruct (Hschema o3 (getitem_elem_of _ _ _ E3)) as (_ & _ & S3).
  destruct (S1 T1) as [ids ->]. destruct (S2 T2) as [[xs ->] [rows ->]].
  destruct (S3 T3) as [outs ->]. simpl. eauto.
Qed.

Lemma loop_finds b (target : nat) :
  Forall op_schema (ops b) →
  probe (op_type <$> ops b) (Z.of_nat target) = Return true →
  ∀ n k,
    (∀ j, (k ≤ j ≤ target)%nat →
          ∃ found, probe (op_type <$> ops b) (Z.of_nat j) = Return found) →
    (k ≤ target < k + n)%nat →
    ∃ t, __get_prefetch_op_tuples_loop b (op_type <$> ops b) (Z.of_nat <$> seq k n)
         = Return (Some t).
Proof.
  intros Hschema Hhit. induction n as [|n IH]; intros k Htotal Hk; [lia |].
  cbn [seq fmap list_fmap]. rewrite loop_cons.
  destruct (Htotal k) as [[|] Hfound]; [lia | |]; rewrite Hfound; simpl.
  - by apply collect_tuple_of_probe.
  - apply IH.
    + intros j Hj. apply Htotal. lia.
    + destruct (decide (k = target)) as [-> | ?]; [congruence | lia].
Qed.

(** A split_ids, prefetch, merge_ids sequence anywhere in the block
    makes the scan return a tuple. *)
Lemma scan_finds p s :
  Forall op_schema (ops (global_block p)) →
  triple_at (op_type <$> ops (global_block p)) s →
  ∃ t, __get_prefetch_op_tuples p = Return (Some t).
Proof.
  intros Hschema Hat. pose proof (triple_at_length _ _ Hat) as Hlen.
  unfold __get_prefetch_op_tuples, range.
  apply (loop_finds _ (S s)); [done | by apply probe_hit | | lia].
  intros j Hj. apply probe_no_raise; lia.
Qed.

Lemma probe_wrapped op_types :
  wrapped_triple op_types → probe op_types 0 = Return true.
Proof.
  intros (H0 & Hl & H1). unfold probe.
  assert (G0 : getitem op_types 0 = Return "prefetch")
    by exact (getitem_nat _ 0 _ H0).
  assert (G1 : getitem op_types (0 + 1) = Return "merge_ids")
    by exact (getitem_nat _ 1 _ H1).
  assert (Gl : getitem op_types (0 - 1) = Return "split_ids")
    by exact (getitem_last _ _ Hl).
  rewrite G0. simpl. rewrite Gl. simpl. by rewrite G1.
Qed.

(** The index -1.  When the first operator is a prefetch, the second a
    merge_ids and the last a split_ids, the test at index 0 succeeds,
    because [op_types[i - 1]] reads the last operator: the scan returns
    [split_ids_op_id = -1] with the "Ids" inputs of the last operator. *)
Theorem scan_wraps_around p o_last ids :
  Forall op_schema (ops (global_block p)) →
  wrapped_triple (op_type <$> ops (global_block p)) →
  last (ops (global_block p)) = Some o_last →
  inputs o_last !! "Ids" = Some ids →
  ∃ outs need_delete_vars,
    __get_prefetch_op_tuples p = Return (Some (-1, ids, outs, need_delete_vars)).
Proof.
  intros Hschema Hwrap Hlast Hids. rewrite Forall_forall in Hschema.
  pose proof (probe_wrapped _ Hwrap) as Hprobe.
  destruct Hwrap as (T0 & _ & T1).
  apply list_lookup_fmap_Some in T0 as (o0 & T0 & H0).
  apply list_lookup_fmap_Some in T1 as (o1 & T1 & H1).
  unfold __get_prefetch_op_tuples, range. rewrite length_fmap.
  destruct (length (ops (global_block p))) as [|n] eqn:Hlen;
    [apply lookup_lt_Some in H0; lia |].
  cbn [seq fmap list_fmap].
  change (Z.of_nat 0) with 0%Z. rewrite loop_cons, Hprobe. simpl.
  unfold collect_tuple, input, output.
  assert (G0 : getitem (ops (global_block p)) 0 = Return o0)
    by exact (getitem_nat _ 0 _ H0).
  assert (G1 : getitem (ops (global_block p)) (0 + 1) = Return o1)
    by exact (getitem_nat _ 1 _ H1).
  assert (Gl : getitem (ops (global_block p)) (0 - 1) = Return o_last)
    by exact (getitem_last _ _ Hlast).
  destruct (Hschema o0 (list_elem_of_lookup_2 _ _ _ H0)) as (_ & S0 & _).
  destruct (Hschema o1 (list_elem_of_lookup_2 _ _ _ H1)) as (_ & _ & S1).
  destruct (S0 (eq_sym T0)) as [[xs Hxs] [rows Hrows]].
  destruct (S1 (eq_sym T1)) as [outs Houts].
  rewrite Gl. simpl. rewrite Hids. simpl. rewrite G0. simpl.
  rewrite Hxs. simpl. rewrite Hrows. simpl. rewrite G1. simpl. rewrite Houts.
  simpl. eauto.
Qed.

Lemma wrapped_program_schema :
  Forall op_schema (ops (global_block Examples.wrapped_program)).
Proof.
  repeat (apply List.Forall_cons;
          [repeat split; try discriminate; intros; vm_compute; eauto |]).
  apply List.Forall_nil.
Qed.

(** The theorem on a block of four operators: prefetch, merge_ids, mul,
    split_ids. *)
Lemma scan_wraps_around_witness :
  ∃ outs need_delete_vars,
    __get_prefetch_op_tuples Examples.wrapped_program
    = Return (Some (-1, ["ids"], outs, need_delete_vars)).
Proof.
  exact (scan_wraps_around Examples.wrapped_program Examples.split_ids_op ["ids"]
           wrapped_program_schema
           (conj eq_refl (conj eq_refl eq_refl)) eq_refl eq_refl).
Defined.

End Scan.

(** * [convert_dist_to_sparse_program] *)

Section Convert.

(** Up to the call of [__get_prefetch_op_tuples]: the table variable is
    renamed and a SELECTED_ROWS variable takes its name. *)
Lemma convert_head p emb v0 :
  _distributed_lookup_table p = Some emb →
  emb ≠ EmptyString →
  vars (global_block p) !! emb = Some v0 →
  convert_dist_to_sparse_program p
  = rewrite_lookup_ops (sparse_table_var emb v0)
      (set_global_block (retabled_block emb v0 (global_block p)) p).
Proof.
  intros Htable Hne Hvar.
  assert (Ho : emb +:+ ".origin" ≠ emb) by (by apply app_suffix_ne).
  unfold convert_dist_to_sparse_program, rewrite_lookup_ops.
  cbv [mbind M_bind StateExn.get lift on_global_block mret M_ret].
  rewrite Htable.
  destruct emb as [|c emb']; [done |].
  set (emb := String c emb') in *.
  unfold _rename_var. rewrite Hvar.
  cbn [result_bind result_ret global_block set_global_block vars].
  unfold dict_getitem at 1.
  rewrite lookup_delete_ne by done. rewrite lookup_insert_eq.
  unfold create_var.
  cbn [global_block set_global_block vars].
  rewrite lookup_delete_eq.
  cbn [global_block set_global_block vars ops name shape dtype set_name set_type
       sub_blocks _distributed_lookup_table _version].
  unfold set_type, set_global_block.
  cbn [vars ops sub_blocks _distributed_lookup_table _version global_block].
  rewrite alter_insert_eq.
  reflexivity.
Qed.

Lemma convert_untabled p :
  _distributed_lookup_table p = None ∨ _distributed_lookup_table p = Some EmptyString →
  convert_dist_to_sparse_program p = (p, Return ReturnedNone).
Proof.
  intros H. unfold convert_dist_to_sparse_program.
  cbv [mbind M_bind StateExn.get]. by destruct H as [-> | ->].
Qed.

Lemma convert_undeclared p emb :
  _distributed_lookup_table p = Some emb →
  emb ≠ EmptyString →
  vars (global_block p) !! emb = None →
  convert_dist_to_sparse_program p = (p, Raise ValueError).
Proof.
  intros Htable Hne Hvar. unfold convert_dist_to_sparse_program.
  cbv [mbind M_bind StateExn.get on_global_block]. rewrite Htable.
  destruct emb as [|c emb']; [done |].
  unfold _rename_var. by rewrite Hvar.
Qed.

(** A loop keeps what each of its iterations keeps. *)
Lemma for_each_invariant {S A} (I : S → Prop) (body : A → M S unit) l :
  (∀ x s, I s → I (body x s).1) →
  ∀ s, I s → I (for_each l body s).1.
Proof.
  intros Hbody. induction l as [|x l IH]; intros s Hs; [done |].
  cbn [for_each]. cbv [mbind M_bind].
  specialize (Hbody x s Hs). destruct (body x s) as [s' [[]|e]]; simpl in *.
  - by apply IH.
  - done.
Qed.

Lemma _remove_op_at b A x rest (i : Z) :
  ops b = (A ++ x :: rest)%list →
  i = Z.of_nat (length A) →
  _remove_op i b = Return {| vars := vars b; ops := (A ++ rest)%list |}.
Proof.
  intros Hops ->. unfold _remove_op.
  rewrite bool_decide_eq_false_2 by lia.
  rewrite bool_decide_eq_true_2 by (rewrite Hops, length_app; simpl; lia).
  by rewrite Hops, Nat2Z.id, delete_middle.
Qed.

Lemma _insert_op_at b A rest args o (i : Z) :
  ops b = (A ++ rest)%list →
  i = Z.of_nat (length A) →
  make_operator args = Return o →
  _insert_op i args b = Return {| vars := vars b; ops := (A ++ o :: rest)%list |}.
Proof.
  intros Hops -> Hmake. unfold _insert_op.
  rewrite bool_decide_eq_false_2 by lia.
  rewrite bool_decide_eq_true_2 by (rewrite Hops, length_app; lia).
  rewrite Hmake. cbn [mbind result_bind].
  by rewrite Hops, Nat2Z.id, take_app_length, drop_app_length.
Qed.

(** The lookup_sparse_table operator as the block stores it: the type
    declares none of the three attributes passed, and none is kept. *)
Lemma make_operator_lookup_sparse_table ids w out :
  make_operator (lookup_sparse_table_op ids w out)
  = Return (sparse_lookup (name ids) (name w) (name out)).
Proof. reflexivity. Qed.

(** The loop over [range(split_ids_id + 2, split_ids_id - 1, -1)]. *)
Lemma remove_loop_run q s A o1 o2 o3 B :
  ops (global_block q) = (A ++ o1 :: o2 :: o3 :: B)%list →
  s = Z.of_nat (length A) →
  for_each (range_down (s + 2) (s - 1)) remove_body q
  = (set_global_block
       {| vars := vars (global_block q); ops := (A ++ B)%list |} q,
     Return tt).
Proof.
  intros Hops ->. rewrite range_down_3. cbn [for_each].
  cbv [mbind M_bind remove_body on_global_block mret M_ret].
  rewrite (_remove_op_at _ (A ++ [o1; o2]) o3 B);
    [| by rewrite Hops, <- app_assoc | rewrite length_app; simpl; lia].
  cbn [result_bind result_ret global_block set_global_block].
  rewrite (_remove_op_at _ (A ++ [o1]) o2 B);
    [| by rewrite <- !app_assoc | rewrite length_app; simpl; lia].
  cbn [result_bind result_ret global_block set_global_block].
  rewrite (_remove_op_at _ A o1 B); [| by rewrite <- !app_assoc | done].
  reflexivity.
Qed.

Lemma remove_body_vars idx q :
  vars (global_block (remove_body idx q).1) = vars (global_block q).
Proof.
  cbv [remove_body on_global_block mbind mret]. unfold _remove_op.
  repeat case_bool_decide; done.
Qed.

Lemma insert_body_run s w q A rest a b :
  ops (global_block q) = (A ++ rest)%list →
  s = Z.of_nat (length A) →
  declared_as (global_block q) a →
  declared_as (global_block q) b →
  insert_body s w (a, b) q
  = (set_global_block
       {| vars := vars (global_block q);
          ops := (A ++ sparse_lookup a (name w) b :: rest)%list |} q,
     Return tt).
Proof.
  intros Hops -> (va & Ha & Hna) (vb & Hb & Hnb).
  cbv [insert_body mbind M_bind StateExn.get lift dict_getitem
       __insert_lookup_sparse_table_op on_global_block mret M_ret].
  cbn [fst snd]. rewrite Ha, Hb.
  rewrite (_insert_op_at _ A rest _ (sparse_lookup (name va) (name w) (name vb)))
    by (done || apply make_operator_lookup_sparse_table).
  cbn [result_bind result_ret].
  by rewrite Hna, Hnb.
Qed.

(** The insertion loop, when every name it looks up is declared: the
    operators pile up at [split_ids_id], the last pair's first. *)
Lemma insert_loop_run s w A pairs :
  s = Z.of_nat (length A) →
  ∀ q rest,
    ops (global_block q) = (A ++ rest)%list →
    (∀ pr, pr ∈ pairs →
           declared_as (global_block q) pr.1 ∧ declared_as (global_block q) pr.2) →
    for_each pairs (insert_body s w) q
    = (set_global_block
         {| vars := vars (global_block q);
            ops := (A ++ reverse ((λ pr, sparse_lookup pr.1 (name w) pr.2) <$> pairs)
                      ++ rest)%list |} q,
       Return tt).
Proof.
  intros Hs. induction pairs as [|[a b] pairs IH]; intros q rest Hops Hdecl.
  - simpl. cbv [mret M_ret]. rewrite <- Hops. by destruct q as [[] ? ? ?].
  - cbn [for_each]. cbv [mbind M_bind].
    destruct (Hdecl (a, b)) as [Ha Hb]; [by left |].
    rewrite (insert_body_run s w q A rest a b) by done.
    rewrite (IH _ (sparse_lookup a (name w) b :: rest)); [| done |].
    + cbn [fmap list_fmap]. rewrite reverse_cons, <- app_assoc. reflexivity.
    + intros pr Hpr. apply Hdecl. by right.
Qed.

Lemma insert_body_vars s w pr q :
  vars (global_block (insert_body s w pr q).1) = vars (global_block q).
Proof.
  cbv [insert_body mbind M_bind StateExn.get lift dict_getitem
       __insert_lookup_sparse_table_op on_global_block mret M_ret].
  destruct (vars (global_block q) !! pr.1); [| done].
  destruct (vars (global_block q) !! pr.2); [| done].
  unfold _insert_op. rewrite make_operator_lookup_sparse_table.
  repeat case_bool_decide; done.
Qed.

(** Whatever the insertion loop does, it only adds lookup_sparse_table
    operators at [split_ids_id]. *)
Lemma insert_body_frame s w A B pr q :
  s = Z.of_nat (length A) →
  (∃ added, ops (global_block q) = (A ++ added ++ B)%list
            ∧ Forall (λ o, op_type o = "lookup_sparse_table") added) →
  ∃ added, ops (global_block (insert_body s w pr q).1) = (A ++ added ++ B)%list
           ∧ Forall (λ o, op_type o = "lookup_sparse_table") added.
Proof.
  intros Hs (added & Hops & Hadded).
  cbv [insert_body mbind M_bind StateExn.get lift dict_getitem
       __insert_lookup_sparse_table_op on_global_block mret M_ret].
  destruct (vars (global_block q) !! pr.1) as [va|]; [| by exists added].
  destruct (vars (global_block q) !! pr.2) as [vb|]; [| by exists added].
  rewrite (_insert_op_at _ A (added ++ B) _
             (sparse_lookup (name va) (name w) (name vb)))
    by (done || apply make_operator_lookup_sparse_table).
  cbn [result_bind result_ret fst global_block set_global_block ops].
  exists (sparse_lookup (name va) (name w) (name vb) :: added). split; [done |].
  by constructor.
Qed.

Lemma rewrite_lookup_ops_vars w q :
  vars (global_block (rewrite_lookup_ops w q).1) = vars (global_block q).
Proof.
  unfold rewrite_lookup_ops. cbv [mbind M_bind StateExn.get lift mret M_ret].
  destruct (__get_prefetch_op_tuples q) as [[t|]|e]; [| done | done].
  cbn [subscript_tuple].
  pose proof (for_each_invariant
                (λ x, vars (global_block x) = vars (global_block q)) remove_body
                (range_down (t.1.1.1 + 2) (t.1.1.1 - 1))) as Hremove.
  destruct (for_each (range_down (t.1.1.1 + 2) (t.1.1.1 - 1)) remove_body q)
    as [q1 r1] eqn:E1.
  assert (H1 : vars (global_block q1) = vars (global_block q)).
  { specialize (Hremove (λ idx x Hx, eq_trans (remove_body_vars idx x) Hx) q eq_refl).
    by rewrite E1 in Hremove. }
  destruct r1 as [[]|e]; [| done].
  pose proof (for_each_invariant
                (λ x, vars (global_block x) = vars (global_block q))
                (insert_body t.1.1.1 w) (zip t.1.1.2 t.1.2)) as Hinsert.
  specialize (Hinsert (λ pr x Hx, eq_trans (insert_body_vars _ _ pr x) Hx) q1 H1).
  by destruct (for_each (zip t.1.1.2 t.1.2) (insert_body t.1.1.1 w) q1)
    as [q2 [[]|e]].
Qed.

(** The block around the first split_ids, prefetch, merge_ids sequence. *)
Lemma ops_around {A} (l : list A) s o1 o2 o3 :
  l !! s = Some o1 → l !! S s = Some o2 → l !! S (S s) = Some o3 →
  l = (take s l ++ o1 :: o2 :: o3 :: drop (S (S (S s))) l)%list.
Proof.
  intros H1 H2 H3.
  rewrite <- (take_drop_middle _ _ _ H3) at 1.
  rewrite (take_S_r _ _ _ H2), (take_S_r _ _ _ H1).
  by rewrite <- !app_assoc.
Qed.

Lemma scan_result q s o1 o2 o3 ids xs rows outs :
  first_triple_at (op_type <$> ops (global_block q)) s →
  ops (global_block q) !! s = Some o1 →
  ops (global_block q) !! S s = Some o2 →
  ops (global_block q) !! S (S s) = Some o3 →
  inputs o1 !! "Ids" = Some ids →
  inputs o2 !! "X" = Some xs →
  outputs o2 !! "Out" = Some rows →
  outputs o3 !! "Out" = Some outs →
  __get_prefetch_op_tuples q
  = Return (Some (Z.of_nat s, ids, outs, (xs ++ rows)%list)).
Proof.
  intros Hfirst H1 H2 H3 Hids Hxs Hrows Houts. unfold __get_prefetch_op_tuples.
  rewrite (scan_first _ s) by done. by eapply collect_tuple_at.
Qed.

(** The second half of the conversion on a block whose first sequence
    starts at [s] and whose paired names are declared. *)
Lemma rewrite_lookup_ops_run w q s o1 o2 o3 ids xs rows outs :
  first_triple_at (op_type <$> ops (global_block q)) s →
  ops (global_block q) !! s = Some o1 →
  ops (global_block q) !! S s = Some o2 →
  ops (global_block q) !! S (S s) = Some o3 →
  inputs o1 !! "Ids" = Some ids →
  inputs o2 !! "X" = Some xs →
  outputs o2 !! "Out" = Some rows →
  outputs o3 !! "Out" = Some outs →
  (∀ a, a ∈ ids → declared_as (global_block q) a) →
  (∀ a, a ∈ outs → declared_as (global_block q) a) →
  rewrite_lookup_ops w q
  = (set_global_block
       {| vars := vars (global_block q);
          ops := (take s (ops (global_block q))
                  ++ reverse ((λ pr, sparse_lookup pr.1 (name w) pr.2) <$> zip ids outs)
                  ++ drop (S (S (S s))) (ops (global_block q)))%list |} q,
     Return ReturnedProgram).
Proof.
  intros Hfirst H1 H2 H3 Hids Hxs Hrows Houts Hdi Hdo.
  pose proof (ops_around _ _ _ _ _ H1 H2 H3) as Hops.
  assert (Hs : Z.of_nat s = Z.of_nat (length (take s (ops (global_block q))))).
  { rewrite length_take. apply lookup_lt_Some in H1. lia. }
  unfold rewrite_lookup_ops. cbv [mbind M_bind StateExn.get lift mret M_ret].
  rewrite (scan_result q s o1 o2 o3 ids xs rows outs) by done.
  cbn [subscript_tuple fst snd].
  rewrite (remove_loop_run q _ _ o1 o2 o3 _ Hops Hs).
  rewrite (insert_loop_run _ w (take s (ops (global_block q))) _ Hs _
             (drop (S (S (S s))) (ops (global_block q)))); [done | done |].
  intros [a b] Hpr. cbn [global_block set_global_block vars fst snd]. split.
  - apply Hdi. by eapply elem_of_zip_l.
  - apply Hdo. by eapply elem_of_zip_r.
Qed.

(** The same, whatever is declared: the three operators are gone, the
    others are in place, and only lookup_sparse_table operators have
    been added where split_ids was. *)
Lemma rewrite_lookup_ops_frame w q s o1 o2 o3 ids xs rows outs :
  first_triple_at (op_type <$> ops (global_block q)) s →
  ops (global_block q) !! s = Some o1 →
  ops (global_block q) !! S s = Some o2 →
  ops (global_block q) !! S (S s) = Some o3 →
  inputs o1 !! "Ids" = Some ids →
  inputs o2 !! "X" = Some xs →
  outputs o2 !! "Out" = Some rows →
  outputs o3 !! "Out" = Some outs →
  ∃ added,
    ops (global_block (rewrite_lookup_ops w q).1)
    = (take s (ops (global_block q)) ++ added
       ++ drop (S (S (S s))) (ops (global_block q)))%list
    ∧ Forall (λ o, op_type o = "lookup_sparse_table") added.
Proof.
  intros Hfirst H1 H2 H3 Hids Hxs Hrows Houts.
  pose proof (ops_around _ _ _ _ _ H1 H2 H3) as Hops.
  assert (Hs : Z.of_nat s = Z.of_nat (length (take s (ops (global_block q))))).
  { rewrite length_take. apply lookup_lt_Some in H1. lia. }
  unfold rewrite_lookup_ops. cbv [mbind M_bind StateExn.get lift mret M_ret].
  rewrite (scan_result q s o1 o2 o3 ids xs rows outs) by done.
  cbn [subscript_tuple fst snd].
  rewrite (remove_loop_run q _ _ o1 o2 o3 _ Hops Hs).
  set (q1 := set_global_block _ q).
  pose proof (for_each_invariant
                (λ x, ∃ added,
                   ops (global_block x)
                   = (take s (ops (global_block q)) ++ added
                      ++ drop (S (S (S s))) (ops (global_block q)))%list
                   ∧ Forall (λ o, op_type o = "lookup_sparse_table") added)
                (insert_body (Z.of_nat s) w) (zip ids outs)) as Hinsert.
  specialize (Hinsert (λ pr x, insert_body_frame _ w _ _ pr x Hs) q1).
  destruct (for_each (zip ids outs) (insert_body (Z.of_nat s) w) q1)
    as [q2 [[]|e]]; apply Hinsert; by exists [].
Qed.

(** Renaming the table variable leaves the types and the slots of the
    operators in place. *)
Lemma retabled_op_types emb v0 b :
  op_type <$> ops (retabled_block emb v0 b) = op_type <$> ops b.
Proof. unfold retabled_block. simpl. by rewrite <- list_fmap_compose. Qed.

Lemma rename_op_schema old new o : op_schema o → op_schema (rename_op old new o).
Proof.
  unfold op_schema, rename_op. simpl. rewrite !lookup_fmap, !fmap_is_Some. tauto.
Qed.

Lemma retabled_schema emb v0 b :
  Forall op_schema (ops b) → Forall op_schema (ops (retabled_block emb v0 b)).
Proof.
  intros H. unfold retabled_block. simpl. rewrite Forall_fmap.
  eapply Forall_impl; [exact H |]. intros o. apply rename_op_schema.
Qed.

Lemma retabled_declared emb v0 b a :
  emb ≠ EmptyString →
  vars b !! emb = Some v0 →
  vars_named b →
  is_Some (vars b !! a) →
  declared_as (retabled_block emb v0 b) (rename_arg emb (emb +:+ ".origin") a).
Proof.
  intros Hne Hvar Hnamed [v Hv].
  assert (Ho : emb +:+ ".origin" ≠ emb) by (by apply app_suffix_ne).
  unfold declared_as, retabled_block, rename_arg. simpl.
  case_bool_decide as Ha.
  - exists (set_name (emb +:+ ".origin") v0).
    rewrite lookup_insert_ne by done. rewrite lookup_delete_ne by done.
    by rewrite lookup_insert_eq.
  - rewrite lookup_insert_ne by done. rewrite lookup_delete_ne by done.
    destruct (decide (emb +:+ ".origin" = a)) as [<- | Hne'].
    + exists (set_name (emb +:+ ".origin") v0). by rewrite lookup_insert_eq.
    + exists v. rewrite lookup_insert_ne by done. split; [done |].
      by apply Hnamed.
Qed.

(** The names in a slot of a renamed operator are declared once the
    table variable has been renamed and re-created. *)
Lemma retabled_slot_declared emb v0 b o :
  emb ≠ EmptyString →
  vars b !! emb = Some v0 →
  vars_named b →
  args_declared b o →
  let o' := rename_op emb (emb +:+ ".origin") o in
  (∀ slot l a, inputs o' !! slot = Some l → a ∈ l →
               declared_as (retabled_block emb v0 b) a)
  ∧ (∀ slot l a, outputs o' !! slot = Some l → a ∈ l →
                 declared_as (retabled_block emb v0 b) a).
Proof.
  intros Hne Hvar Hnamed [Hin Hout]. simpl.
  split; intros slot l a; rewrite lookup_fmap;
    destruct (_ !! slot) as [l0|] eqn:E; simpl; try done;
    intros [= <-] (a0 & -> & Ha0)%list_elem_of_fmap;
    apply retabled_declared; eauto.
Qed.

(** The whole conversion of a trainer program. *)
Lemma convert_run p emb v0 s :
  _distributed_lookup_table p = Some emb →
  emb ≠ EmptyString →
  vars (global_block p) !! emb = Some v0 →
  vars_named (global_block p) →
  Forall op_schema (ops (global_block p)) →
  Forall (args_declared (global_block p)) (ops (global_block p)) →
  first_triple_at (op_type <$> ops (global_block p)) s →
  let b1 := retabled_block emb v0 (global_block p) in
  ∃ o_split o_merge ids outs,
    ops b1 !! s = Some o_split
    ∧ ops b1 !! S (S s) = Some o_merge
    ∧ inputs o_split !! "Ids" = Some ids
    ∧ outputs o_merge !! "Out" = Some outs
    ∧ convert_dist_to_sparse_program p
      = (set_global_block
           {| vars := vars b1;
              ops := (take s (ops b1)
                      ++ reverse ((λ pr, sparse_lookup pr.1 emb pr.2) <$> zip ids outs)
                      ++ drop (S (S (S s))) (ops b1))%list |} p,
         Return ReturnedProgram).
Proof.
  intros Htable Hne Hvar Hnamed Hschema Hdeclared Hfirst b1.
  rewrite (convert_head p emb v0) by done. fold b1.
  set (q := set_global_block b1 p).
  assert (Hfirst1 : first_triple_at (op_type <$> ops (global_block q)) s)
    by (change (first_triple_at (op_type <$> ops b1) s); unfold b1;
        by rewrite retabled_op_types).
  pose proof (retabled_schema emb v0 _ Hschema) as Hschema1. fold b1 in Hschema1.
  rewrite Forall_forall in Hschema1.
  destruct (proj1 Hfirst1) as (T1 & T2 & T3).
  apply list_lookup_fmap_Some in T1 as (o1 & T1 & H1).
  apply list_lookup_fmap_Some in T2 as (o2 & T2 & H2).
  apply list_lookup_fmap_Some in T3 as (o3 & T3 & H3).
  destruct (Hschema1 o1 (list_elem_of_lookup_2 _ _ _ H1)) as (S1 & _ & _).
  destruct (Hschema1 o2 (list_elem_of_lookup_2 _ _ _ H2)) as (_ & S2 & _).
  destruct (Hschema1 o3 (list_elem_of_lookup_2 _ _ _ H3)) as (_ & _ & S3).
  destruct (S1 (eq_sym T1)) as [ids Hids].
  destruct (S2 (eq_sym T2)) as [[xs Hxs] [rows Hrows]].
  destruct (S3 (eq_sym T3)) as [outs Houts].
  exists o1, o3, ids, outs. repeat split; try done.
  rewrite Forall_forall in Hdeclared.
  simpl in H1, H3. unfold b1, retabled_block in H1, H3. simpl in H1, H3.
  apply list_lookup_fmap_Some in H1 as (o1' & -> & H1').
  apply list_lookup_fmap_Some in H3 as (o3' & -> & H3').
  pose proof (retabled_slot_declared emb v0 _ o1' Hne Hvar Hnamed
                (Hdeclared o1' (list_elem_of_lookup_2 _ _ _ H1'))) as [D1 _].
  pose proof (retabled_slot_declared emb v0 _ o3' Hne Hvar Hnamed
                (Hdeclared o3' (list_elem_of_lookup_2 _ _ _ H3'))) as [_ D3].
  apply (rewrite_lookup_ops_run (sparse_table_var emb v0) q s
           (rename_op emb (emb +:+ ".origin") o1') o2
           (rename_op emb (emb +:+ ".origin") o3') ids xs rows outs);
    try done.
  - simpl. unfold b1, retabled_block. simpl.
    by rewrite list_lookup_fmap, H1'.
  - simpl. unfold b1, retabled_block. simpl.
    by rewrite list_lookup_fmap, H3'.
  - intros a Ha. by eapply D1.
  - intros a Ha. by eapply D3.
Qed.

Lemma rewrite_lookup_ops_not_None w q :
  (rewrite_lookup_ops w q).2 ≠ Return ReturnedNone.
Proof.
  unfold rewrite_lookup_ops. cbv [mbind M_bind StateExn.get lift mret M_ret].
  destruct (__get_prefetch_op_tuples q) as [[t|]|e]; [| done | done].
  cbn [subscript_tuple].
  destruct (for_each _ remove_body q) as [q1 [[]|e]]; [| done].
  by destruct (for_each _ (insert_body _ w) q1) as [q2 [[]|e]].
Qed.

(** ** The example trainer program meets the preconditions *)

Lemma declare_named names k v :
  Examples.declare names !! k = Some v → name v = k.
Proof.
  unfold Examples.declare. intros H. apply elem_of_list_to_map_2 in H.
  apply list_elem_of_fmap in H as (n & [= -> ->] & _). done.
Qed.

Lemma trainer_program_named : vars_named (global_block Examples.trainer_program).
Proof. intros k v. apply declare_named. Qed.

Lemma args_declared_by_slots b o :
  map_Forall (λ _ l, Forall (λ a, is_Some (vars b !! a)) l) (inputs o) →
  map_Forall (λ _ l, Forall (λ a, is_Some (vars b !! a)) l) (outputs o) →
  args_declared b o.
Proof.
  intros Hin Hout. split; intros slot l a Hl Ha.
  - specialize (Hin slot l Hl). rewrite Forall_forall in Hin. by apply Hin.
  - specialize (Hout slot l Hl). rewrite Forall_forall in Hout. by apply Hout.
Qed.

Lemma trainer_program_schema :
  Forall op_schema (ops (global_block Examples.trainer_program)).
Proof.
  repeat (apply List.Forall_cons;
          [repeat split; try discriminate; intros; vm_compute; eauto |]).
  apply List.Forall_nil.
Qed.

Lemma trainer_program_declared :
  Forall (args_declared (global_block Examples.trainer_program))
    (ops (global_block Examples.trainer_program)).
Proof.
  repeat (apply List.Forall_cons;
          [apply args_declared_by_slots; apply (bool_decide_unpack _);
           vm_compute; exact I |]).
  apply List.Forall_nil.
Qed.

Lemma trainer_program_first_triple :
  first_triple_at (op_type <$> ops (global_block Examples.trainer_program)) 1.
Proof.
  split; [by repeat split | split].
  - intros [|s'] Hs' (H & _); [discriminate | lia].
  - intros (H & _). discriminate.
Qed.

(** ** The table variable *)

(** C1, as amended.  For every program whose [_distributed_lookup_table]
    names a variable of the global block, the conversion renames that
    variable to "<name>.origin" and creates a persistable SELECTED_ROWS
    variable of the same shape and dtype under the original name; both
    are in place whatever happens next, and None is never returned.
    The program object itself is returned when, in addition, the
    variables are registered under their names, the operators follow
    their schema and refer to declared variables, and the global block
    holds a split_ids, prefetch, merge_ids sequence found by the scan. *)
Theorem convert_retables p emb v0 :
  _distributed_lookup_table p = Some emb →
  emb ≠ EmptyString →
  vars (global_block p) !! emb = Some v0 →
  let origin := emb +:+ ".origin" in
  let call := convert_dist_to_sparse_program p in
  let created :=
    {| name := emb; shape := shape v0; dtype := dtype v0;
       type := SELECTED_ROWS; persistable := true |} in
  vars (global_block call.1)
  = <[emb := created]> (delete emb (<[origin := set_name origin v0]>
                                       (vars (global_block p))))
  ∧ vars (global_block call.1) !! origin = Some (set_name origin v0)
  ∧ vars (global_block call.1) !! emb = Some created
  ∧ call.2 ≠ Return ReturnedNone
  ∧ ∀ s, vars_named (global_block p) →
         Forall op_schema (ops (global_block p)) →
         Forall (args_declared (global_block p)) (ops (global_block p)) →
         first_triple_at (op_type <$> ops (global_block p)) s →
         call.2 = Return ReturnedProgram.
Proof.
  intros Htable Hne Hvar origin call created.
  assert (Ho : origin ≠ emb) by (by apply app_suffix_ne).
  assert (Hvars : vars (global_block call.1)
                  = <[emb := created]>
                      (delete emb (<[origin := set_name origin v0]>
                                     (vars (global_block p))))).
  { subst call. rewrite (convert_head p emb v0) by done.
    by rewrite rewrite_lookup_ops_vars. }
  split; [done |]. rewrite Hvars. split; [| split; [| split]].
  - rewrite lookup_insert_ne by done. rewrite lookup_delete_ne by done.
    by rewrite lookup_insert_eq.
  - by rewrite lookup_insert_eq.
  - subst call. rewrite (convert_head p emb v0) by done.
    apply rewrite_lookup_ops_not_None.
  - intros s Hnamed Hschema Hdeclared Hfirst.
    destruct (convert_run p emb v0 s Htable Hne Hvar Hnamed Hschema Hdeclared Hfirst)
      as (? & ? & ? & ? & _ & _ & _ & _ & Hrun).
    subst call. by rewrite Hrun.
Qed.

(** The theorem on the example trainer program, which is converted and
    handed back. *)
Lemma convert_retables_witness :
  let p := Examples.trainer_program in
  let v0 := Examples.dense "emb" in
  let call := convert_dist_to_sparse_program p in
  let created :=
    {| name := "emb"; shape := shape v0; dtype := dtype v0;
       type := SELECTED_ROWS; persistable := true |} in
  vars (global_block call.1)
  = <["emb" := created]> (delete "emb" (<["emb.origin" := set_name "emb.origin" v0]>
                                          (vars (global_block p))))
  ∧ vars (global_block call.1) !! "emb.origin" = Some (set_name "emb.origin" v0)
  ∧ vars (global_block call.1) !! "emb" = Some created
  ∧ call.2 ≠ Return ReturnedNone
  ∧ call.2 = Return ReturnedProgram.
Proof.
  pose proof (convert_retables Examples.trainer_program "emb" (Examples.dense "emb")
                eq_refl ltac:(discriminate) eq_refl) as H.
  cbv zeta in H. destruct H as (H1 & H2 & H3 & H4 & H5).
  refine (conj H1 (conj H2 (conj H3 (conj H4 _)))).
  exact (H5 1%nat trainer_program_named trainer_program_schema
           trainer_program_declared trainer_program_first_triple).
Defined.

(** C1, as stated, fails: the table variable is declared, but the block
    holds no prefetch operator, so [prefetch_op_tuples] is None and
    subscripting it raises TypeError: nothing is returned. *)
Lemma convert_raises_without_prefetch :
  let p := Examples.no_prefetch_program in
  let call := convert_dist_to_sparse_program p in
  _distributed_lookup_table p = Some "emb"
  ∧ vars (global_block p) !! "emb" = Some (Examples.dense "emb")
  ∧ call.2 = Raise TypeError
  ∧ ¬ (call.2 = Return ReturnedProgram).
Proof.
  assert (H : (convert_dist_to_sparse_program Examples.no_prefetch_program).2
              = Raise TypeError) by (vm_compute; reflexivity).
  cbv zeta. rewrite H. repeat split; discriminate.
Qed.

(** ** Completion *)

Lemma least_triple op_types s :
  triple_at op_types s →
  ∃ s', (s' ≤ s)%nat ∧ triple_at op_types s'
        ∧ ∀ k, (k < s')%nat → ¬ triple_at op_types k.
Proof.
  intros Hat.
  assert (Q : ∀ n, (∀ k, (k < n)%nat → ¬ triple_at op_types k)
                   ∨ ∃ m, (m < n)%nat ∧ triple_at op_types m
                          ∧ ∀ k, (k < m)%nat → ¬ triple_at op_types k).
  { induction n as [|n [IH | (m & Hm & Hm_at & Hmin)]].
    - left. intros k Hk. lia.
    - destruct (decide (triple_at op_types n)) as [Hn | Hn].
      + right. exists n. split; [lia | done].
      + left. intros k Hk. destruct (decide (k = n)) as [-> | ?]; [done |].
        apply IH. lia.
    - right. exists m. split; [lia | done]. }
  destruct (Q s) as [Hnone | (m & Hm & Hm_at & Hmin)].
  - exists s. split; [lia | done].
  - exists m. split; [lia | done].
Qed.

End Convert.

(** * More on [__get_prefetch_op_tuples]: what a result tells *)

Section ScanInversion.

Lemma getitem_nat_inv {A} (l : list A) (i : nat) x :
  getitem l (Z.of_nat i) = Return x → l !! i = Some x.
Proof.
  unfold getitem. case_bool_decide.
  - rewrite Nat2Z.id. by destruct (l !! i) as [y|]; intros [= <-].
  - rewrite bool_decide_eq_false_2 by lia. done.
Qed.

Lemma getitem_minus1_inv {A} (l : list A) x :
  getitem l (-1) = Return x → last l = Some x.
Proof.
  unfold getitem. rewrite bool_decide_eq_false_2 by lia.
  case_bool_decide; [| done]. rewrite last_lookup.
  replace (Z.to_nat (Z.of_nat (length l) + -1)) with (pred (length l)) by lia.
  by destruct (l !! pred (length l)) as [y|]; intros [= <-].
Qed.

Lemma getitem_past_end {A} (l : list A) (i : nat) :
  (length l ≤ i)%nat → getitem l (Z.of_nat i) = Raise IndexError.
Proof.
  intros Hi. unfold getitem. rewrite bool_decide_eq_false_2 by lia.
  by rewrite bool_decide_eq_false_2 by lia.
Qed.

Lemma probe_true_inv op_types i :
  probe op_types i = Return true →
  getitem op_types i = Return "prefetch"
  ∧ getitem op_types (i - 1) = Return "split_ids"
  ∧ getitem op_types (i + 1) = Return "merge_ids".
Proof.
  unfold probe.
  destruct (getitem op_types i) as [t|]; simpl; [| done].
  case_bool_decide as E; [subst | done].
  destruct (getitem op_types (i - 1)) as [t1|]; simpl; [| done].
  case_bool_decide as E1; [subst | done].
  destruct (getitem op_types (i + 1)) as [t2|]; simpl; [| done].
  intros [= E2%bool_decide_eq_true]. by subst.
Qed.

(** A test fails without raising at an index that holds no prefetch. *)
Lemma probe_not_prefetch op_types (i : nat) t :
  op_types !! i = Some t → t ≠ "prefetch" →
  probe op_types (Z.of_nat i) = Return false.
Proof.
  intros Hi Ht. unfold probe. rewrite (getitem_nat _ _ _ Hi). simpl.
  by rewrite bool_decide_eq_false_2.
Qed.

Lemma collect_tuple_not_None b i : collect_tuple b i ≠ Return None.
Proof.
  unfold collect_tuple, input, output.
  destruct (getitem (ops b) (i - 1)) as [o1|]; simpl; [| done].
  destruct (inputs o1 !! "Ids"); simpl; [| done].
  destruct (getitem (ops b) i) as [o2|]; simpl; [| done].
  destruct (inputs o2 !! "X"); simpl; [| done].
  destruct (outputs o2 !! "Out"); simpl; [| done].
  destruct (getitem (ops b) (i + 1)) as [o3|]; simpl; [| done].
  by destruct (outputs o3 !! "Out").
Qed.

Lemma collect_tuple_inv b i s ids outs need_delete_vars :
  collect_tuple b i = Return (Some (s, ids, outs, need_delete_vars)) →
  s = (i - 1)%Z
  ∧ ∃ o1 o2 o3 xs rows,
      getitem (ops b) (i - 1) = Return o1
      ∧ getitem (ops b) i = Return o2
      ∧ getitem (ops b) (i + 1) = Return o3
      ∧ inputs o1 !! "Ids" = Some ids
      ∧ inputs o2 !! "X" = Some xs
      ∧ outputs o2 !! "Out" = Some rows
      ∧ outputs o3 !! "Out" = Some outs
      ∧ need_delete_vars = (xs ++ rows)%list.
Proof.
  unfold collect_tuple, input, output.
  destruct (getitem (ops b) (i - 1)) as [o1|]; simpl; [| done].
  destruct (inputs o1 !! "Ids") as [ids'|] eqn:E1; simpl; [| done].
  destruct (getitem (ops b) i) as [o2|]; simpl; [| done].
  destruct (inputs o2 !! "X") as [xs|] eqn:E2; simpl; [| done].
  destruct (outputs o2 !! "Out") as [rows|] eqn:E3; simpl; [| done].
  destruct (getitem (ops b) (i + 1)) as [o3|]; simpl; [| done].
  destruct (outputs o3 !! "Out") as [outs'|] eqn:E4; simpl; [| done].
  intros [= <- <- <- <-]. split; [done |].
  exists o1, o2, o3, xs, rows. by rewrite E1, E2, E3, E4.
Qed.

(** A tuple comes from the first index that passes the test. *)
Lemma loop_Some_inv b op_types t :
  ∀ n k,
    __get_prefetch_op_tuples_loop b op_types (Z.of_nat <$> seq k n)
    = Return (Some t) →
    ∃ i, (k ≤ i < k + n)%nat
         ∧ probe op_types (Z.of_nat i) = Return true
         ∧ (∀ j, (k ≤ j < i)%nat → probe op_types (Z.of_nat j) = Return false)
         ∧ collect_tuple b (Z.of_nat i) = Return (Some t).
Proof.
  induction n as [|n IH]; intros k; [done |].
  cbn [seq fmap list_fmap]. rewrite loop_cons.
  destruct (probe op_types (Z.of_nat k)) as [[|]|] eqn:Hk; simpl; [| | done].
  - intros H. exists k. split; [lia |]. split; [done |]. split; [| done].
    intros j Hj. lia.
  - intros H. destruct (IH _ H) as (i & Hi & Hhit & Hbefore & Hcollect).
    exists i. split; [lia |]. split; [done |]. split; [| done].
    intros j Hj. destruct (decide (j = k)) as [-> | ?]; [done |].
    apply Hbefore. lia.
Qed.

(** None comes from a scan in which every test failed. *)
Lemma loop_None_inv b op_types :
  ∀ n k,
    __get_prefetch_op_tuples_loop b op_types (Z.of_nat <$> seq k n) = Return None →
    ∀ j, (k ≤ j < k + n)%nat → probe op_types (Z.of_nat j) = Return false.
Proof.
  induction n as [|n IH]; intros k H j Hj; [lia |].
  cbn [seq fmap list_fmap] in H. rewrite loop_cons in H.
  destruct (probe op_types (Z.of_nat k)) as [[|]|] eqn:Hk; simpl in H; [| | done].
  - by apply collect_tuple_not_None in H.
  - destruct (decide (j = k)) as [-> | ?]; [done |]. apply (IH _ H). lia.
Qed.

(** The scan raises what the first test that does not fail raises. *)
Lemma loop_raise b op_types (target : nat) e :
  ∀ n k,
    (∀ j, (k ≤ j < target)%nat → probe op_types (Z.of_nat j) = Return false) →
    probe op_types (Z.of_nat target) = Raise e →
    (k ≤ target < k + n)%nat →
    __get_prefetch_op_tuples_loop b op_types (Z.of_nat <$> seq k n) = Raise e.
Proof.
  induction n as [|n IH]; intros k Hbefore Hhit Hk; [lia |].
  cbn [seq fmap list_fmap]. rewrite loop_cons.
  destruct (decide (k = target)) as [-> | Hne].
  - by rewrite Hhit.
  - rewrite Hbefore by lia. simpl. apply IH; [| done | lia].
    intros j Hj. apply Hbefore. lia.
Qed.

Lemma loop_all_fail b op_types :
  ∀ n k,
    (∀ j, (k ≤ j < k + n)%nat → probe op_types (Z.of_nat j) = Return false) →
    __get_prefetch_op_tuples_loop b op_types (Z.of_nat <$> seq k n) = Return None.
Proof.
  induction n as [|n IH]; intros k Hfail; [done |].
  cbn [seq fmap list_fmap]. rewrite loop_cons, Hfail by lia. simpl.
  apply IH. intros j Hj. apply Hfail. lia.
Qed.

(** Soundness of the scan.  A tuple returned by
    [__get_prefetch_op_tuples] either has [split_ids_op_id = -1], in
    which case the block starts with prefetch, merge_ids and ends with
    split_ids, or it has [split_ids_op_id = n >= 0], and then the first
    split_ids, prefetch, merge_ids sequence of the block starts at [n],
    the second component is the "Ids" input of the operator at [n], the
    third the "Out" output of the operator at [n+2], and the fourth the
    "X" inputs followed by the "Out" outputs of the prefetch operator. *)
Theorem scan_sound p split_ids_op_id ids outs need_delete_vars :
  __get_prefetch_op_tuples p
  = Return (Some (split_ids_op_id, ids, outs, need_delete_vars)) →
  let b := global_block p in
  (split_ids_op_id = (-1)%Z ∧ wrapped_triple (op_type <$> ops b))
  ∨ ∃ n o1 o2 o3 xs rows,
      split_ids_op_id = Z.of_nat n
      ∧ first_triple_at (op_type <$> ops b) n
      ∧ ops b !! n = Some o1
      ∧ ops b !! S n = Some o2
      ∧ ops b !! S (S n) = Some o3
      ∧ inputs o1 !! "Ids" = Some ids
      ∧ inputs o2 !! "X" = Some xs
      ∧ outputs o2 !! "Out" = Some rows
      ∧ outputs o3 !! "Out" = Some outs
      ∧ need_delete_vars = (xs ++ rows)%list.
Proof.
  intros H b. unfold __get_prefetch_op_tuples, range in H. fold b in H.
  apply loop_Some_inv in H as (i & Hi & Hhit & Hbefore & Hcollect).
  apply collect_tuple_inv in Hcollect
    as (-> & o1 & o2 & o3 & xs & rows & G1 & G2 & G3 & Hids & Hxs & Hrows & Houts & ->).
  pose proof (probe_true_inv _ _ Hhit) as (T2 & T1 & T3).
  destruct i as [|n].
  - left. split; [done |]. repeat split.
    + by apply (getitem_nat_inv _ 0).
    + by apply getitem_minus1_inv.
    + by apply (getitem_nat_inv _ 1).
  - right. exists n, o1, o2, o3, xs, rows.
    replace (Z.of_nat (S n) - 1)%Z with (Z.of_nat n) in * by lia.
    replace (Z.of_nat (S n) + 1)%Z with (Z.of_nat (S (S n))) in * by lia.
    split; [done |]. split.
    { split; [| split].
      - repeat split; by apply getitem_nat_inv.
      - intros s' Hs' Hat. apply probe_hit in Hat.
        rewrite Hbefore in Hat by lia. discriminate.
      - intros Hwrap. apply probe_wrapped in Hwrap.
        pose proof (Hbefore 0%nat ltac:(lia)) as H0.
        change (Z.of_nat 0) with 0%Z in H0. congruence. }
    repeat split; try done; by apply getitem_nat_inv.
Qed.

(** The theorem on the example trainer program. *)
Lemma scan_sound_witness :
  let b := global_block Examples.trainer_program in
  ((1 = -1)%Z ∧ wrapped_triple (op_type <$> ops b))
  ∨ ∃ n o1 o2 o3 xs rows,
      1%Z = Z.of_nat n
      ∧ first_triple_at (op_type <$> ops b) n
      ∧ ops b !! n = Some o1
      ∧ ops b !! S n = Some o2
      ∧ ops b !! S (S n) = Some o3
      ∧ inputs o1 !! "Ids" = Some ["ids"]
      ∧ inputs o2 !! "X" = Some xs
      ∧ outputs o2 !! "Out" = Some rows
      ∧ outputs o3 !! "Out" = Some ["emb_out"]
      ∧ ["ids.0"; "ids.1"; "row.0"; "row.1"] = (xs ++ rows)%list.
Proof.
  exact (scan_sound Examples.trainer_program 1 ["ids"] ["emb_out"]
           ["ids.0"; "ids.1"; "row.0"; "row.1"] eq_refl).
Defined.

(** A block without any prefetch operator: the scan returns None, and
    raises nothing. *)
Lemma scan_None_without_prefetch p :
  (∀ o, o ∈ ops (global_block p) → op_type o ≠ "prefetch") →
  __get_prefetch_op_tuples p = Return None.
Proof.
  intros Hnone. unfold __get_prefetch_op_tuples, range.
  apply loop_all_fail. intros j Hj. rewrite length_fmap in Hj.
  destruct (lookup_lt_is_Some_2 (ops (global_block p)) j) as [o Ho]; [lia |].
  apply (probe_not_prefetch _ _ (op_type o)).
  - by rewrite list_lookup_fmap, Ho.
  - apply Hnone. by eapply list_elem_of_lookup_2.
Qed.

Lemma no_prefetch_program_ops o :
  o ∈ ops (global_block Examples.no_prefetch_program) → op_type o ≠ "prefetch".
Proof.
  intros H. simpl in H.
  repeat (apply elem_of_cons in H as [-> | H]; [discriminate |]).
  inversion H.
Qed.

(** Completeness of the scan.  When [__get_prefetch_op_tuples] returns
    None, the block holds no split_ids, prefetch, merge_ids sequence at
    all: a sequence is never missed. *)
Theorem scan_None_no_sequence p :
  __get_prefetch_op_tuples p = Return None →
  (∀ s, ¬ triple_at (op_type <$> ops (global_block p)) s)
  ∧ ¬ wrapped_triple (op_type <$> ops (global_block p)).
Proof.
  intros H. unfold __get_prefetch_op_tuples, range in H.
  pose proof (loop_None_inv _ _ _ _ H) as Hfail. split.
  - intros s Hat. pose proof (triple_at_length _ _ Hat) as Hlen.
    apply probe_hit in Hat. rewrite Hfail in Hat by lia. discriminate.
  - intros Hwrap. pose proof (probe_wrapped _ Hwrap) as Hhit.
    destruct Hwrap as (H0 & _). apply lookup_lt_Some in H0.
    pose proof (Hfail 0%nat ltac:(lia)) as Hf.
    change (Z.of_nat 0) with 0%Z in Hf. congruence.
Qed.

(** The theorem on the example program without prefetch. *)
Lemma scan_None_no_sequence_witness :
  (∀ s, ¬ triple_at (op_type <$> ops (global_block Examples.no_prefetch_program)) s)
  ∧ ¬ wrapped_triple (op_type <$> ops (global_block Examples.no_prefetch_program)).
Proof.
  exact (scan_None_no_sequence Examples.no_prefetch_program eq_refl).
Defined.

(** The out-of-range branch.  When the last operator is the only
    prefetch of the block and the operator before it is a split_ids,
    [op_types[i + 1]] is read past the end: the scan raises
    IndexError. *)
Lemma scan_IndexError_when_prefetch_last p before :
  op_type <$> ops (global_block p) = (before ++ ["split_ids"; "prefetch"])%list →
  "prefetch" ∉ before →
  __get_prefetch_op_tuples p = Raise IndexError.
Proof.
  intros Htypes Hbefore. unfold __get_prefetch_op_tuples, range.
  rewrite Htypes.
  apply (loop_raise _ _ (S (List.length before))).
  - intros j Hj.
    destruct (lookup_lt_is_Some_2 (before ++ ["split_ids"; "prefetch"])%list j)
      as [t Ht]; [rewrite length_app; simpl; lia |].
    apply (probe_not_prefetch _ _ t Ht). intros ->.
    destruct (decide (j < List.length before)%nat) as [Hlt | Hge].
    + rewrite lookup_app_l in Ht by done.
      apply Hbefore. by eapply list_elem_of_lookup_2.
    + rewrite lookup_app_r in Ht by lia.
      replace (j - List.length before)%nat with 0%nat in Ht by lia. discriminate.
  - unfold probe.
    assert (H1 : (before ++ ["split_ids"; "prefetch"])%list !! S (List.length before)
                 = Some "prefetch").
    { rewrite lookup_app_r by lia.
      by replace (S (List.length before) - List.length before)%nat with 1%nat by lia. }
    assert (H0 : (before ++ ["split_ids"; "prefetch"])%list !! List.length before
                 = Some "split_ids").
    { rewrite lookup_app_r by lia. by rewrite Nat.sub_diag. }
    rewrite (getitem_nat _ _ _ H1). simpl.
    replace (Z.of_nat (S (List.length before)) - 1)%Z with (Z.of_nat (List.length before)) by lia.
    rewrite (getitem_nat _ _ _ H0). simpl.
    replace (Z.of_nat (S (List.length before)) + 1)%Z
      with (Z.of_nat (S (S (List.length before)))) by lia.
    rewrite getitem_past_end; [done |]. rewrite length_app. simpl. lia.
  - rewrite length_app. simpl. lia.
Qed.

End ScanInversion.

(** * More on [convert_dist_to_sparse_program]: outcomes and frame *)

Section ConvertOutcomes.

Lemma remove_body_header idx q :
  let q' := (remove_body idx q).1 in
  sub_blocks q' = sub_blocks q
  ∧ _distributed_lookup_table q' = _distributed_lookup_table q
  ∧ _version q' = _version q.
Proof.
  cbv [remove_body on_global_block mbind mret]. unfold _remove_op.
  repeat case_bool_decide; done.
Qed.

Lemma insert_body_header s w pr q :
  let q' := (insert_body s w pr q).1 in
  sub_blocks q' = sub_blocks q
  ∧ _distributed_lookup_table q' = _distributed_lookup_table q
  ∧ _version q' = _version q.
Proof.
  cbv [insert_body mbind M_bind StateExn.get lift dict_getitem
       __insert_lookup_sparse_table_op on_global_block mret M_ret].
  destruct (vars (global_block q) !! pr.1); [| done].
  destruct (vars (global_block q) !! pr.2); [| done].
  unfold _insert_op. rewrite make_operator_lookup_sparse_table.
  repeat case_bool_decide; done.
Qed.

Lemma rewrite_lookup_ops_header w q :
  let q' := (rewrite_lookup_ops w q).1 in
  sub_blocks q' = sub_blocks q
  ∧ _distributed_lookup_table q' = _distributed_lookup_table q
  ∧ _version q' = _version q.
Proof.
  set (I := λ x : Program_,
              sub_blocks x = sub_blocks q
              ∧ _distributed_lookup_table x = _distributed_lookup_table q
              ∧ _version x = _version q).
  assert (Hremove : ∀ idx x, I x → I (remove_body idx x).1).
  { intros idx x (H1 & H2 & H3).
    destruct (remove_body_header idx x) as (G1 & G2 & G3).
    unfold I. by rewrite G1, G2, G3. }
  assert (Hinsert : ∀ s pr x, I x → I (insert_body s w pr x).1).
  { intros s pr x (H1 & H2 & H3).
    destruct (insert_body_header s w pr x) as (G1 & G2 & G3).
    unfold I. by rewrite G1, G2, G3. }
  change (I (rewrite_lookup_ops w q).1).
  unfold rewrite_lookup_ops. cbv [mbind M_bind StateExn.get lift mret M_ret].
  destruct (__get_prefetch_op_tuples q) as [[t|]|e]; [| done | done].
  cbn [subscript_tuple].
  pose proof (for_each_invariant I remove_body
                (range_down (t.1.1.1 + 2) (t.1.1.1 - 1)) Hremove q
                ltac:(done)) as H1.
  destruct (for_each (range_down (t.1.1.1 + 2) (t.1.1.1 - 1)) remove_body q)
    as [q1 [[]|e]]; [| done].
  pose proof (for_each_invariant I (insert_body t.1.1.1 w) (zip t.1.1.2 t.1.2)
                (Hinsert t.1.1.1) q1 H1) as H2.
  by destruct (for_each (zip t.1.1.2 t.1.2) (insert_body t.1.1.1 w) q1)
    as [q2 [[]|e]].
Qed.

(** Frame.  Whatever it returns or raises,
    [convert_dist_to_sparse_program] touches nothing but the global
    block: the other blocks, the [_distributed_lookup_table] attribute
    (which stays set after the conversion) and the version are as
    before. *)
Theorem convert_frame p :
  let p' := (convert_dist_to_sparse_program p).1 in
  sub_blocks p' = sub_blocks p
  ∧ _distributed_lookup_table p' = _distributed_lookup_table p
  ∧ _version p' = _version p.
Proof.
  destruct (_distributed_lookup_table p) as [emb|] eqn:Htable.
  - destruct (decide (emb = EmptyString)) as [-> | Hne].
    + rewrite convert_untabled by auto. simpl. by rewrite Htable.
    + destruct (vars (global_block p) !! emb) as [v0|] eqn:Hvar.
      * rewrite (convert_head p emb v0) by done.
        destruct (rewrite_lookup_ops_header (sparse_table_var emb v0)
                    (set_global_block (retabled_block emb v0 (global_block p)) p))
          as (H1 & H2 & H3).
        cbv zeta. rewrite H1, H2, H3. simpl. by rewrite Htable.
      * rewrite (convert_undeclared p emb) by done. simpl. by rewrite Htable.
  - rewrite convert_untabled by auto. simpl. by rewrite Htable.
Qed.

(** The early return.  [convert_dist_to_sparse_program] returns None
    exactly when [_distributed_lookup_table] is None or the empty
    string, and then the program is left as it was. *)
Theorem convert_returns_None_iff p :
  ((convert_dist_to_sparse_program p).2 = Return ReturnedNone
   ↔ _distributed_lookup_table p = None
     ∨ _distributed_lookup_table p = Some EmptyString)
  ∧ ((convert_dist_to_sparse_program p).2 = Return ReturnedNone →
     (convert_dist_to_sparse_program p).1 = p).
Proof.
  assert (Hiff : (convert_dist_to_sparse_program p).2 = Return ReturnedNone
                 ↔ _distributed_lookup_table p = None
                   ∨ _distributed_lookup_table p = Some EmptyString).
  { split; [| intros H; by rewrite convert_untabled].
    destruct (_distributed_lookup_table p) as [emb|] eqn:Htable; [| auto].
    destruct (decide (emb = EmptyString)) as [-> | Hne]; [auto |].
    destruct (vars (global_block p) !! emb) as [v0|] eqn:Hvar.
    - rewrite (convert_head p emb v0) by done. intros H.
      by apply rewrite_lookup_ops_not_None in H.
    - rewrite (convert_undeclared p emb) by done. done. }
  split; [exact Hiff |].
  intros H. apply Hiff in H. by rewrite convert_untabled.
Qed.

(** The missing table variable.  When [_distributed_lookup_table] names
    a variable that the global block does not have, the renaming raises
    ValueError and the program is left as it was. *)
Theorem convert_ValueError_on_undeclared_table p emb :
  _distributed_lookup_table p = Some emb →
  emb ≠ EmptyString →
  vars (global_block p) !! emb = None →
  convert_dist_to_sparse_program p = (p, Raise ValueError).
Proof.
  intros Htable Hne Hvar. unfold convert_dist_to_sparse_program.
  cbv [mbind M_bind StateExn.get on_global_block]. rewrite Htable.
  destruct emb as [|c emb']; [done |].
  unfold _rename_var. by rewrite Hvar.
Qed.

(** The theorem on the example program, had its table been "table". *)
Lemma convert_ValueError_on_undeclared_table_witness :
  convert_dist_to_sparse_program
    (Examples.program_with Examples.trainer_vars
       [Examples.feed_op; Examples.mul_op] (Some "table"))
  = (Examples.program_with Examples.trainer_vars
       [Examples.feed_op; Examples.mul_op] (Some "table"),
     Raise ValueError).
Proof.
  exact (convert_ValueError_on_undeclared_table
           (Examples.program_with Examples.trainer_vars
              [Examples.feed_op; Examples.mul_op] (Some "table"))
           "table" eq_refl ltac:(discriminate) eq_refl).
Defined.

Lemma retabled_no_prefetch emb v0 b o :
  (∀ o, o ∈ ops b → op_type o ≠ "prefetch") →
  o ∈ ops (retabled_block emb v0 b) → op_type o ≠ "prefetch".
Proof.
  intros Hnone Ho. unfold retabled_block in Ho. simpl in Ho.
  apply list_elem_of_fmap in Ho as (o' & -> & Ho'). simpl. by apply Hnone.
Qed.

(** No prefetch operator.  When the table variable is declared and the
    global block holds no prefetch operator, the scan returns None and
    the conversion raises TypeError on subscripting it; the table
    variable has then already been renamed and re-created, and the
    operators are all still there. *)
Theorem convert_TypeError_without_prefetch p emb v0 :
  _distributed_lookup_table p = Some emb →
  emb ≠ EmptyString →
  vars (global_block p) !! emb = Some v0 →
  (∀ o, o ∈ ops (global_block p) → op_type o ≠ "prefetch") →
  let origin := emb +:+ ".origin" in
  __get_prefetch_op_tuples p = Return None
  ∧ convert_dist_to_sparse_program p
    = (set_global_block
         {| vars := <[emb := {| name := emb; shape := shape v0; dtype := dtype v0;
                                type := SELECTED_ROWS; persistable := true |}]>
                      (delete emb (<[origin := set_name origin v0]>
                                     (vars (global_block p))));
            ops := rename_op emb origin <$> ops (global_block p) |} p,
       Raise TypeError).
Proof.
  intros Htable Hne Hvar Hnone origin.
  split; [by apply scan_None_without_prefetch |].
  rewrite (convert_head p emb v0) by done.
  unfold rewrite_lookup_ops. cbv [mbind M_bind StateExn.get lift mret M_ret].
  rewrite scan_None_without_prefetch; [done |].
  intros o. cbn [global_block set_global_block]. by apply retabled_no_prefetch.
Qed.

(** The theorem on the example program without prefetch. *)
Lemma convert_TypeError_without_prefetch_witness :
  let p := Examples.no_prefetch_program in
  let v0 := Examples.dense "emb" in
  __get_prefetch_op_tuples p = Return None
  ∧ convert_dist_to_sparse_program p
    = (set_global_block
         {| vars := <["emb" := {| name := "emb"; shape := shape v0; dtype := dtype v0;
                                  type := SELECTED_ROWS; persistable := true |}]>
                      (delete "emb" (<["emb.origin" := set_name "emb.origin" v0]>
                                       (vars (global_block p))));
            ops := rename_op "emb" "emb.origin" <$> ops (global_block p) |} p,
       Raise TypeError).
Proof.
  exact (convert_TypeError_without_prefetch Examples.no_prefetch_program "emb"
           (Examples.dense "emb") eq_refl ltac:(discriminate) eq_refl
           no_prefetch_program_ops).
Defined.

(** Prefetch as the last operator.  When the table variable is declared,
    the last operator is the only prefetch of the global block and a
    split_ids precedes it, the scan reads [op_types[i + 1]] past the end
    and the conversion raises IndexError; the table variable has then
    already been renamed and re-created. *)
Theorem convert_IndexError_when_prefetch_last p emb v0 before :
  _distributed_lookup_table p = Some emb →
  emb ≠ EmptyString →
  vars (global_block p) !! emb = Some v0 →
  op_type <$> ops (global_block p) = (before ++ ["split_ids"; "prefetch"])%list →
  "prefetch" ∉ before →
  let origin := emb +:+ ".origin" in
  __get_prefetch_op_tuples p = Raise IndexError
  ∧ convert_dist_to_sparse_program p
    = (set_global_block
         {| vars := <[emb := {| name := emb; shape := shape v0; dtype := dtype v0;
                                type := SELECTED_ROWS; persistable := true |}]>
                      (delete emb (<[origin := set_name origin v0]>
                                     (vars (global_block p))));
            ops := rename_op emb origin <$> ops (global_block p) |} p,
       Raise IndexError).
Proof.
  intros Htable Hne Hvar Htypes Hbefore origin.
  split; [by apply (scan_IndexError_when_prefetch_last p before) |].
  rewrite (convert_head p emb v0) by done.
  unfold rewrite_lookup_ops. cbv [mbind M_bind StateExn.get lift mret M_ret].
  rewrite (scan_IndexError_when_prefetch_last _ before); [done | | done].
  cbn [global_block set_global_block]. by rewrite retabled_op_types.
Qed.

(** The theorem on the example program whose last operator is prefetch. *)
Lemma convert_IndexError_when_prefetch_last_witness :
  let p := Examples.prefetch_last_program in
  let v0 := Examples.dense "emb" in
  __get_prefetch_op_tuples p = Raise IndexError
  ∧ convert_dist_to_sparse_program p
    = (set_global_block
         {| vars := <["emb" := {| name := "emb"; shape := shape v0; dtype := dtype v0;
                                  type := SELECTED_ROWS; persistable := true |}]>
                      (delete "emb" (<["emb.origin" := set_name "emb.origin" v0]>
                                       (vars (global_block p))));
            ops := rename_op "emb" "emb.origin" <$> ops (global_block p) |} p,
       Raise IndexError).
Proof.
  apply (convert_IndexError_when_prefetch_last Examples.prefetch_last_program "emb"
           (Examples.dense "emb") ["feed"]);
    [reflexivity | discriminate | reflexivity | reflexivity |].
  rewrite list_elem_of_singleton. discriminate.
Defined.

(** The first sequence and its slots, once the table variable has been
    renamed. *)
Lemma retabled_triple p emb v0 s :
  Forall op_schema (ops (global_block p)) →
  first_triple_at (op_type <$> ops (global_block p)) s →
  let b1 := retabled_block emb v0 (global_block p) in
  first_triple_at (op_type <$> ops b1) s
  ∧ ∃ o1 o2 o3 ids xs rows outs,
      ops b1 !! s = Some o1
      ∧ ops b1 !! S s = Some o2
      ∧ ops b1 !! S (S s) = Some o3
      ∧ inputs o1 !! "Ids" = Some ids
      ∧ inputs o2 !! "X" = Some xs
      ∧ outputs o2 !! "Out" = Some rows
      ∧ outputs o3 !! "Out" = Some outs.
Proof.
  intros Hschema Hfirst b1.
  assert (Hfirst1 : first_triple_at (op_type <$> ops b1) s)
    by (unfold b1; by rewrite retabled_op_types).
  split; [done |].
  pose proof (retabled_schema emb v0 _ Hschema) as Hschema1. fold b1 in Hschema1.
  rewrite Forall_forall in Hschema1.
  destruct (proj1 Hfirst1) as (T1 & T2 & T3).
  apply list_lookup_fmap_Some in T1 as (o1 & T1 & H1).
  apply list_lookup_fmap_Some in T2 as (o2 & T2 & H2).
  apply list_lookup_fmap_Some in T3 as (o3 & T3 & H3).
  destruct (Hschema1 o1 (list_elem_of_lookup_2 _ _ _ H1)) as (S1 & _ & _).
  destruct (Hschema1 o2 (list_elem_of_lookup_2 _ _ _ H2)) as (_ & S2 & _).
  destruct (Hschema1 o3 (list_elem_of_lookup_2 _ _ _ H3)) as (_ & _ & S3).
  destruct (S1 (eq_sym T1)) as [ids Hids].
  destruct (S2 (eq_sym T2)) as [[xs Hxs] [rows Hrows]].
  destruct (S3 (eq_sym T3)) as [outs Houts].
  by exists o1, o2, o3, ids, xs, rows, outs.
Qed.

(** An undeclared name in the first pair.  When the first "Ids" input
    of the split_ids operator is not a variable of the global block,
    the lookup in [vars] raises KeyError, after the three operators
    have been removed and before anything is inserted: the program is
    left without the sequence and without a lookup_sparse_table
    operator. *)
Theorem convert_KeyError_after_removal
    p emb v0 s o_split o_merge a ids b outs :
  _distributed_lookup_table p = Some emb →
  emb ≠ EmptyString →
  vars (global_block p) !! emb = Some v0 →
  Forall op_schema (ops (global_block p)) →
  first_triple_at (op_type <$> ops (global_block p)) s →
  let origin := emb +:+ ".origin" in
  let present := rename_op emb origin <$> ops (global_block p) in
  present !! s = Some o_split →
  present !! S (S s) = Some o_merge →
  inputs o_split !! "Ids" = Some (a :: ids) →
  outputs o_merge !! "Out" = Some (b :: outs) →
  a ≠ emb → a ≠ origin → vars (global_block p) !! a = None →
  convert_dist_to_sparse_program p
  = (set_global_block
       {| vars := <[emb := {| name := emb; shape := shape v0; dtype := dtype v0;
                              type := SELECTED_ROWS; persistable := true |}]>
                    (delete emb (<[origin := set_name origin v0]>
                                   (vars (global_block p))));
          ops := (take s present ++ drop (S (S (S s))) present)%list |} p,
     Raise KeyError).
Proof.
  intros Htable Hne Hvar Hschema Hfirst origin present
         Hsplit Hmerge Hids Houts Ha1 Ha2 Ha3.
  rewrite (convert_head p emb v0) by done.
  destruct (retabled_triple p emb v0 s Hschema Hfirst)
    as (Hfirst1 & o1 & o2 & o3 & ids' & xs & rows & outs'
        & H1 & H2 & H3 & Hids' & Hxs & Hrows & Houts').
  set (b1 := retabled_block emb v0 (global_block p)) in *.
  change (ops b1) with present in *.
  assert (o1 = o_split) as -> by congruence.
  assert (o3 = o_merge) as -> by congruence.
  assert (ids' = a :: ids) as -> by congruence.
  assert (outs' = b :: outs) as -> by congruence.
  set (q := set_global_block b1 p).
  pose proof (ops_around present _ _ _ _ H1 H2 H3) as Hops.
  assert (Hs : Z.of_nat s = Z.of_nat (List.length (take s present))).
  { rewrite length_take. apply lookup_lt_Some in H1. lia. }
  assert (Hnone : vars (global_block q) !! a = None).
  { unfold q, b1, retabled_block. simpl.
    rewrite lookup_insert_ne by done. rewrite lookup_delete_ne by done.
    by rewrite lookup_insert_ne. }
  unfold rewrite_lookup_ops. cbv [mbind M_bind StateExn.get lift mret M_ret].
  rewrite (scan_result q s o_split o2 o_merge (a :: ids) xs rows (b :: outs))
    by done.
  cbn [subscript_tuple fst snd].
  rewrite (remove_loop_run q _ _ o_split o2 o_merge _ Hops Hs).
  cbn [zip zip_with for_each].
  cbv [mbind M_bind insert_body StateExn.get lift dict_getitem].
  cbn [fst snd global_block set_global_block vars]. rewrite Hnone.
  reflexivity.
Qed.

Lemma undeclared_ids_program_schema :
  Forall op_schema (ops (global_block Examples.undeclared_ids_program)).
Proof.
  repeat (apply List.Forall_cons;
          [repeat split; try discriminate; intros; vm_compute; eauto |]).
  apply List.Forall_nil.
Qed.

Lemma undeclared_ids_program_first_triple :
  first_triple_at
    (op_type <$> ops (global_block Examples.undeclared_ids_program)) 0.
Proof.
  split; [by repeat split | split].
  - intros s' Hs'. lia.
  - intros (H & _). discriminate.
Qed.

(** The theorem on the example program that does not declare "ids". *)
Lemma convert_KeyError_after_removal_witness :
  let p := Examples.undeclared_ids_program in
  let v0 := Examples.dense "emb" in
  let present := rename_op "emb" "emb.origin" <$> ops (global_block p) in
  convert_dist_to_sparse_program p
  = (set_global_block
       {| vars := <["emb" := {| name := "emb"; shape := shape v0; dtype := dtype v0;
                                type := SELECTED_ROWS; persistable := true |}]>
                    (delete "emb" (<["emb.origin" := set_name "emb.origin" v0]>
                                     (vars (global_block p))));
          ops := (take 0 present ++ drop 3 present)%list |} p,
     Raise KeyError).
Proof.
  exact (convert_KeyError_after_removal Examples.undeclared_ids_program "emb"
           (Examples.dense "emb") 0%nat
           (rename_op "emb" "emb.origin" Examples.split_ids_op)
           (rename_op "emb" "emb.origin" Examples.merge_ids_op)
           "ids" [] "emb_out" []
           eq_refl ltac:(discriminate) eq_refl undeclared_ids_program_schema
           undeclared_ids_program_first_triple eq_refl eq_refl eq_refl eq_refl
           ltac:(discriminate) ltac:(discriminate) eq_refl).
Defined.

Lemma lookup_after_splice {A} (l added : list A) s j :
  (s ≤ List.length l)%nat →
  (take s l ++ added ++ drop (S (S (S s))) l)%list !! (s + List.length added + j)%nat
  = l !! (S (S (S s)) + j)%nat.
Proof.
  intros Hs.
  rewrite lookup_app_r by (rewrite length_take; lia).
  rewrite length_take.
  rewrite lookup_app_r by lia. rewrite lookup_drop. f_equal. lia.
Qed.

(** Only the first sequence is converted.  On a trainer program whose
    global block holds a second split_ids, prefetch, merge_ids sequence
    after the first one, the conversion returns the program with that
    second sequence still in it, moved by the number of operators
    inserted minus three. *)
Theorem convert_keeps_later_sequence p emb v0 s s2 :
  _distributed_lookup_table p = Some emb →
  emb ≠ EmptyString →
  vars (global_block p) !! emb = Some v0 →
  vars_named (global_block p) →
  Forall op_schema (ops (global_block p)) →
  Forall (args_declared (global_block p)) (ops (global_block p)) →
  first_triple_at (op_type <$> ops (global_block p)) s →
  triple_at (op_type <$> ops (global_block p)) s2 →
  (s + 3 ≤ s2)%nat →
  let call := convert_dist_to_sparse_program p in
  call.2 = Return ReturnedProgram
  ∧ ∃ inserted,
      List.length (ops (global_block call.1))
      = (List.length (ops (global_block p)) - 3 + inserted)%nat
      ∧ triple_at (op_type <$> ops (global_block call.1)) (s2 - 3 + inserted).
Proof.
  intros Htable Hne Hvar Hnamed Hschema Hdeclared Hfirst Hat2 Hs2 call.
  destruct (convert_run p emb v0 s Htable Hne Hvar Hnamed Hschema Hdeclared Hfirst)
    as (o1 & o3 & ids & outs & H1 & _ & _ & _ & Hrun).
  subst call. rewrite Hrun. cbn [fst snd global_block set_global_block ops].
  split; [done |].
  set (present := ops (retabled_block emb v0 (global_block p))) in *.
  set (added := reverse ((λ pr, sparse_lookup pr.1 emb pr.2) <$> zip ids outs)).
  assert (Hlen : List.length present = List.length (ops (global_block p)))
    by (unfold present, retabled_block; simpl; by rewrite length_fmap).
  assert (Htypes : op_type <$> present = op_type <$> ops (global_block p))
    by apply retabled_op_types.
  pose proof (triple_at_length _ _ Hat2) as Hlen2.
  rewrite length_fmap in Hlen2.
  exists (List.length added). split.
  - rewrite !length_app, length_take, length_drop. lia.
  - assert (Hat : ∀ j, (op_type <$> (take s present ++ added
                                      ++ drop (S (S (S s))) present)%list)
                       !! (s2 - 3 + List.length added + j)%nat
                       = (op_type <$> ops (global_block p)) !! (s2 + j)%nat).
    { intros j. rewrite list_lookup_fmap.
      replace (s2 - 3 + List.length added + j)%nat
        with (s + List.length added + (s2 - s - 3 + j))%nat by lia.
      rewrite lookup_after_splice by lia.
      rewrite <- list_lookup_fmap, Htypes. f_equal. lia. }
    destruct Hat2 as (T1 & T2 & T3). repeat split.
    + rewrite <- (Nat.add_0_r (s2 - 3 + List.length added)), Hat.
      by rewrite Nat.add_0_r.
    + replace (S (s2 - 3 + List.length added))
        with (s2 - 3 + List.length added + 1)%nat by lia.
      rewrite Hat. by replace (s2 + 1)%nat with (S s2) by lia.
    + replace (S (S (s2 - 3 + List.length added)))
        with (s2 - 3 + List.length added + 2)%nat by lia.
      rewrite Hat. by replace (s2 + 2)%nat with (S (S s2)) by lia.
Qed.

Lemma two_sequence_program_named :
  vars_named (global_block Examples.two_sequence_program).
Proof. intros k v. apply declare_named. Qed.

Lemma two_sequence_program_schema :
  Forall op_schema (ops (global_block Examples.two_sequence_program)).
Proof.
  repeat (apply List.Forall_cons;
          [repeat split; try discriminate; intros; vm_compute; eauto |]).
  apply List.Forall_nil.
Qed.

Lemma two_sequence_program_declared :
  Forall (args_declared (global_block Examples.two_sequence_program))
    (ops (global_block Examples.two_sequence_program)).
Proof.
  repeat (apply List.Forall_cons;
          [apply args_declared_by_slots; apply (bool_decide_unpack _);
           vm_compute; exact I |]).
  apply List.Forall_nil.
Qed.

Lemma two_sequence_program_first_triple :
  first_triple_at (op_type <$> ops (global_block Examples.two_sequence_program)) 1.
Proof.
  split; [by repeat split | split].
  - intros [|s'] Hs' (H & _); [discriminate | lia].
  - intros (H & _). discriminate.
Qed.

(** The theorem on the example program with two sequences. *)
Lemma convert_keeps_later_sequence_witness :
  let call := convert_dist_to_sparse_program Examples.two_sequence_program in
  call.2 = Return ReturnedProgram
  ∧ ∃ inserted,
      List.length (ops (global_block call.1))
      = (List.length (ops (global_block Examples.two_sequence_program)) - 3
         + inserted)%nat
      ∧ triple_at (op_type <$> ops (global_block call.1)) (4 - 3 + inserted).
Proof.
  exact (convert_keeps_later_sequence Examples.two_sequence_program "emb"
           (Examples.dense "emb") 1%nat 4%nat
           eq_refl ltac:(discriminate) eq_refl two_sequence_program_named
           two_sequence_program_schema two_sequence_program_declared
           two_sequence_program_first_triple
           (conj eq_refl (conj eq_refl eq_refl)) ltac:(lia)).
Defined.

(** The number of operators.  On a trainer program the conversion
    replaces three operators by as many lookup_sparse_table operators
    as the shorter of the two lists has entries: the "Ids" inputs of
    split_ids beyond the number of "Out" outputs of merge_ids, or the
    outputs beyond the number of inputs, get no operator. *)
Theorem convert_operator_count p emb v0 s o_split o_merge ids outs :
  _distributed_lookup_table p = Some emb →
  emb ≠ EmptyString →
  vars (global_block p) !! emb = Some v0 →
  vars_named (global_block p) →
  Forall op_schema (ops (global_block p)) →
  Forall (args_declared (global_block p)) (ops (global_block p)) →
  first_triple_at (op_type <$> ops (global_block p)) s →
  let present := rename_op emb (emb +:+ ".origin") <$> ops (global_block p) in
  present !! s = Some o_split →
  present !! S (S s) = Some o_merge →
  inputs o_split !! "Ids" = Some ids →
  outputs o_merge !! "Out" = Some outs →
  let after := ops (global_block (convert_dist_to_sparse_program p).1) in
  List.length after
  = (List.length (ops (global_block p)) - 3
     + List.length ids `min` List.length outs)%nat
  ∧ List.length (filter (λ o, op_type o = "lookup_sparse_table") after)
    = (List.length (filter (λ o, op_type o = "lookup_sparse_table")
                      (ops (global_block p)))
       + List.length ids `min` List.length outs)%nat.
Proof.
  intros Htable Hne Hvar Hnamed Hschema Hdeclared Hfirst present
         Hsplit Hmerge Hids Houts after.
  destruct (convert_run p emb v0 s Htable Hne Hvar Hnamed Hschema Hdeclared Hfirst)
    as (o1 & o3 & ids' & outs' & H1 & H3 & Hids' & Houts' & Hrun).
  change (ops (retabled_block emb v0 (global_block p))) with present in *.
  assert (o1 = o_split) as -> by congruence.
  assert (o3 = o_merge) as -> by congruence.
  assert (ids' = ids) as -> by congruence.
  assert (outs' = outs) as -> by congruence.
  subst after. rewrite Hrun. cbn [fst global_block set_global_block ops].
  destruct (retabled_triple p emb v0 s Hschema Hfirst)
    as (Hfirst1 & p1 & p2 & p3 & ? & ? & ? & ? & P1 & P2 & P3 & _).
  change (ops (retabled_block emb v0 (global_block p))) with present in *.
  pose proof (ops_around present _ _ _ _ P1 P2 P3) as Hops.
  destruct (proj1 Hfirst1) as (T1 & T2 & T3).
  rewrite list_lookup_fmap, P1 in T1. rewrite list_lookup_fmap, P2 in T2.
  rewrite list_lookup_fmap, P3 in T3. simpl in T1, T2, T3.
  injection T1 as T1. injection T2 as T2. injection T3 as T3.
  assert (Hlen : List.length present = List.length (ops (global_block p)))
    by (unfold present; by rewrite length_fmap).
  assert (Hcount :
    List.length (filter (λ o, op_type o = "lookup_sparse_table") present)
    = List.length (filter (λ o, op_type o = "lookup_sparse_table")
                     (ops (global_block p)))).
  { unfold present. clear. induction (ops (global_block p)) as [|o l IH]; [done |].
    rewrite fmap_cons, !filter_cons. simpl.
    destruct (decide (op_type o = "lookup_sparse_table")); simpl; by rewrite IH. }
  apply lookup_lt_Some in P3.
  split.
  - rewrite !length_app, length_take, length_drop, length_reverse, length_fmap,
      length_zip. lia.
  - rewrite <- Hcount.
    assert (Hf :
      List.length (filter (λ o, op_type o = "lookup_sparse_table") present)
      = (List.length (filter (λ o, op_type o = "lookup_sparse_table")
                        (take s present))
         + List.length (filter (λ o, op_type o = "lookup_sparse_table")
                          (drop (S (S (S s))) present)))%nat).
    { rewrite Hops at 1. rewrite filter_app, length_app.
      rewrite (filter_cons _ p1), (filter_cons _ p2), (filter_cons _ p3).
      by rewrite !decide_False by congruence. }
    assert (Hall : filter (λ o, op_type o = "lookup_sparse_table")
                     (reverse ((λ pr, sparse_lookup pr.1 emb pr.2) <$> zip ids outs))
                   = reverse ((λ pr, sparse_lookup pr.1 emb pr.2) <$> zip ids outs)).
    { generalize (zip ids outs). intros l.
      induction l as [|pr l IH]; [done |].
      rewrite fmap_cons, reverse_cons, filter_app, IH. by rewrite filter_cons. }
    rewrite !filter_app, !length_app, Hall, length_reverse, length_fmap,
      length_zip, Hf. lia.
Qed.

(** The theorem on the example trainer program: one pair, one operator. *)
Lemma convert_operator_count_witness :
  let p := Examples.trainer_program in
  let after := ops (global_block (convert_dist_to_sparse_program p).1) in
  List.length after
  = (List.length (ops (global_block p)) - 3
     + List.length ["ids"] `min` List.length ["emb_out"])%nat
  ∧ List.length (filter (λ o, op_type o = "lookup_sparse_table") after)
    = (List.length (filter (λ o, op_type o = "lookup_sparse_table")
                      (ops (global_block p)))
       + List.length ["ids"] `min` List.length ["emb_out"])%nat.
Proof.
  exact (convert_operator_count Examples.trainer_program "emb"
           (Examples.dense "emb") 1%nat
           (rename_op "emb" "emb.origin" Examples.split_ids_op)
           (rename_op "emb" "emb.origin" Examples.merge_ids_op)
           ["ids"] ["emb_out"]
           eq_refl ltac:(discriminate) eq_refl trainer_program_named
           trainer_program_schema trainer_program_declared
           trainer_program_first_triple eq_refl eq_refl eq_refl eq_refl).
Defined.

End ConvertOutcomes.

(** * [convert_dist_to_sparse_program]: the operators removed and inserted *)

Section ConvertOperators.

(** [convert_over] at the framework's own [_remove_op] is the
    conversion. *)
Lemma convert_over_remove_op :
  convert_over _remove_op = convert_dist_to_sparse_program.
Proof. reflexivity. Qed.

Lemma convert_over_head remove_op p emb v0 :
  _distributed_lookup_table p = Some emb →
  emb ≠ EmptyString →
  vars (global_block p) !! emb = Some v0 →
  convert_over remove_op p
  = rewrite_lookup_ops_over remove_op (sparse_table_var emb v0)
      (set_global_block (retabled_block emb v0 (global_block p)) p).
Proof.
  intros Htable Hne Hvar.
  assert (Ho : emb +:+ ".origin" ≠ emb) by (by apply app_suffix_ne).
  unfold convert_over, rewrite_lookup_ops_over.
  cbv [mbind M_bind StateExn.get lift on_global_block mret M_ret].
  rewrite Htable.
  destruct emb as [|c emb']; [done |].
  set (emb := String c emb') in *.
  unfold _rename_var. rewrite Hvar.
  cbn [result_bind result_ret global_block set_global_block vars].
  unfold dict_getitem at 1.
  rewrite lookup_delete_ne by done. rewrite lookup_insert_eq.
  unfold create_var.
  cbn [global_block set_global_block vars].
  rewrite lookup_delete_eq.
  cbn [global_block set_global_block vars ops name shape dtype set_name set_type
       sub_blocks _distributed_lookup_table _version].
  unfold set_type, set_global_block.
  cbn [vars ops sub_blocks _distributed_lookup_table _version global_block].
  rewrite alter_insert_eq.
  reflexivity.
Qed.






(** C2, as amended.  For every program whose [_distributed_lookup_table]
    names a variable of the global block, whose operators follow their
    schema and whose first split_ids, prefetch, merge_ids sequence
    starts at [s] (the prefetch operator is at [s+1]) and is the one
    the scan finds: every operator other than the three of the sequence
    is kept, in its original order, and only lookup_sparse_table
    operators are added, where split_ids was.  The three operators are
    removed by three calls of [_remove_op] with the indices [s+2],
    [s+1], [s] in this order, the first of them made when the global
    block still holds all its operators; what the conversion does
    afterwards does not depend on [_remove_op]. *)
Theorem convert_removes_triple p emb v0 s :
  _distributed_lookup_table p = Some emb →
  emb ≠ EmptyString →
  vars (global_block p) !! emb = Some v0 →
  Forall op_schema (ops (global_block p)) →
  first_triple_at (op_type <$> ops (global_block p)) s →
  let present := rename_op emb (emb +:+ ".origin") <$> ops (global_block p) in
  let call := convert_dist_to_sparse_program p in
  op_type <$> present = op_type <$> ops (global_block p)
  ∧ (∃ added,
       ops (global_block call.1)
       = (take s present ++ added ++ drop (S (S (S s))) present)%list
       ∧ Forall (λ o, op_type o = "lookup_sparse_table") added)
  ∧ convert_dist_to_sparse_program = convert_over _remove_op
  ∧ ∃ (before : Program_) (rest : M Program_ returned),
      ops (global_block before) = present
      ∧ ∀ remove_op : Z → Block → result Block,
          let remove := λ idx : Z,
            on_global_block (λ b, b' ← remove_op idx b; mret (tt, b')) in
          convert_over remove_op p
          = (_ ← remove (Z.of_nat s + 2)%Z;
             _ ← remove (Z.of_nat s + 1)%Z;
             _ ← remove (Z.of_nat s);
             rest) before.
Proof.
  intros Htable Hne Hvar Hschema Hfirst present call.
  split; [apply (retabled_op_types emb v0) |].
  set (b1 := retabled_block emb v0 (global_block p)).
  set (q := set_global_block b1 p).
  destruct (retabled_triple p emb v0 s Hschema Hfirst)
    as (Hfirst1 & o1 & o2 & o3 & ids & xs & rows & outs
        & H1 & H2 & H3 & Hids & Hxs & Hrows & Houts).
  fold b1 in Hfirst1, H1, H2, H3.
  split; [| split; [reflexivity |]].
  - subst call. rewrite (convert_head p emb v0) by done.
    exact (rewrite_lookup_ops_frame (sparse_table_var emb v0) q s o1 o2 o3
             ids xs rows outs Hfirst1 H1 H2 H3 Hids Hxs Hrows Houts).
  - exists q,
      (for_each (zip ids outs) (insert_body (Z.of_nat s) (sparse_table_var emb v0))
         ≫= λ _, mret ReturnedProgram).
    split; [reflexivity |].
    intros remove_op remove.
    rewrite (convert_over_head remove_op p emb v0) by done.
    fold b1. fold q.
    unfold rewrite_lookup_ops_over.
    cbv [mbind M_bind StateExn.get lift mret M_ret].
    rewrite (scan_result q s o1 o2 o3 ids xs rows outs) by done.
    cbn [subscript_tuple fst snd]. rewrite range_down_3. cbn [for_each].
    subst remove. cbv [mbind M_bind mret M_ret].
    destruct (on_global_block _ q) as [q1 [[]|e1]]; [| reflexivity].
    destruct (on_global_block _ q1) as [q2 [[]|e2]]; [| reflexivity].
    destruct (on_global_block _ q2) as [q3 [[]|e3]]; reflexivity.
Qed.

(** The theorem on the example trainer program. *)
Lemma convert_removes_triple_witness :
  let p := Examples.trainer_program in
  let present := rename_op "emb" "emb.origin" <$> ops (global_block p) in
  let call := convert_dist_to_sparse_program p in
  op_type <$> present = op_type <$> ops (global_block p)
  ∧ (∃ added,
       ops (global_block call.1) = (take 1 present ++ added ++ drop 4 present)%list
       ∧ Forall (λ o, op_type o = "lookup_sparse_table") added)
  ∧ convert_dist_to_sparse_program = convert_over _remove_op
  ∧ ∃ (before : Program_) (rest : M Program_ returned),
      ops (global_block before) = present
      ∧ ∀ remove_op : Z → Block → result Block,
          let remove := λ idx : Z,
            on_global_block (λ b, b' ← remove_op idx b; mret (tt, b')) in
          convert_over remove_op p
          = (_ ← remove (1 + 2)%Z;
             _ ← remove (1 + 1)%Z;
             _ ← remove 1%Z;
             rest) before.
Proof.
  exact (convert_removes_triple Examples.trainer_program "emb" (Examples.dense "emb")
           1%nat eq_refl ltac:(discriminate) eq_refl trainer_program_schema
           trainer_program_first_triple).
Defined.

(** C2, as stated, fails: the block holds the sequence, but no
    distributed lookup table is recorded, so the function returns at
    its first test and removes nothing. *)
Lemma convert_keeps_triple_without_table :
  let p := Examples.untabled_program in
  let call := convert_dist_to_sparse_program p in
  triple_at (op_type <$> ops (global_block p)) 1
  ∧ call = (p, Return ReturnedNone)
  ∧ ¬ ∃ added,
        ops (global_block call.1)
        = (take 1 (ops (global_block p)) ++ added
           ++ drop 4 (ops (global_block p)))%list
        ∧ Forall (λ o, op_type o = "lookup_sparse_table") added.
Proof.
  split; [by repeat split |]. split; [reflexivity |].
  intros (added & Hops & Hadded). simpl in Hops.
  injection Hops as Hops.
  destruct added as [|o added]; [discriminate |].
  injection Hops as <- _. apply Forall_cons in Hadded as [Ho _].
  discriminate.
Qed.




(** C10, as amended.  For every program whose [_distributed_lookup_table]
    names a variable of the global block, whose variables are registered
    under their names, whose operators follow their schema and refer to
    declared variables, and whose global block holds a prefetch operator
    immediately preceded by split_ids and immediately followed by
    merge_ids, [__get_prefetch_op_tuples] returns a 4-tuple, before and
    after the table variable is renamed; and the conversion completes
    without raising when the scan is not caught by a prefetch at index 0
    whose predecessor, taken at index -1, is the last operator.  For
    every program whose table variable is declared: when the global
    block holds no prefetch operator the scan returns None and the
    subscript of None raises TypeError; when the last operator is the
    only prefetch operator of the global block and follows a split_ids,
    the scan reads past the end and raises IndexError. *)
Theorem convert_completes p emb v0 s :
  _distributed_lookup_table p = Some emb →
  emb ≠ EmptyString →
  vars (global_block p) !! emb = Some v0 →
  vars_named (global_block p) →
  Forall op_schema (ops (global_block p)) →
  Forall (args_declared (global_block p)) (ops (global_block p)) →
  triple_at (op_type <$> ops (global_block p)) s →
  (∃ t : prefetch_op_tuple, __get_prefetch_op_tuples p = Return (Some t))
  ∧ (∃ t : prefetch_op_tuple,
       __get_prefetch_op_tuples
         (set_global_block (retabled_block emb v0 (global_block p)) p)
       = Return (Some t))
  ∧ (¬ wrapped_triple (op_type <$> ops (global_block p)) →
     ∃ p', convert_dist_to_sparse_program p = (p', Return ReturnedProgram))
  ∧ (∀ q tbl v,
       _distributed_lookup_table q = Some tbl →
       tbl ≠ EmptyString →
       vars (global_block q) !! tbl = Some v →
       (∀ o, o ∈ ops (global_block q) → op_type o ≠ "prefetch") →
       __get_prefetch_op_tuples q = Return None
       ∧ (convert_dist_to_sparse_program q).2 = Raise TypeError)
  ∧ (∀ q tbl v before,
       _distributed_lookup_table q = Some tbl →
       tbl ≠ EmptyString →
       vars (global_block q) !! tbl = Some v →
       op_type <$> ops (global_block q)
       = (before ++ ["split_ids"; "prefetch"])%list →
       "prefetch" ∉ before →
       __get_prefetch_op_tuples q = Raise IndexError
       ∧ (convert_dist_to_sparse_program q).2 = Raise IndexError).
Proof.
  intros Htable Hne Hvar Hnamed Hschema Hdeclared Hat.
  split; [by apply (scan_finds p s) |]. split; [| split; [| split]].
  - apply (scan_finds _ s).
    + by apply retabled_schema.
    + cbn [global_block set_global_block]. by rewrite retabled_op_types.
  - intros Hwrap.
    destruct (least_triple _ _ Hat) as (s' & _ & Hat' & Hmin).
    destruct (convert_run p emb v0 s' Htable Hne Hvar Hnamed Hschema Hdeclared)
      as (? & ? & ? & ? & _ & _ & _ & _ & Hrun); [done |].
    eexists. exact Hrun.
  - intros q tbl v Ht Hn Hv Hnone.
    split; [by apply scan_None_without_prefetch |].
    rewrite (convert_head q tbl v) by done.
    unfold rewrite_lookup_ops. cbv [mbind M_bind StateExn.get lift mret M_ret].
    rewrite scan_None_without_prefetch; [done |].
    intros o. cbn [global_block set_global_block]. by apply retabled_no_prefetch.
  - intros q tbl v before Ht Hn Hv Htypes Hbefore.
    split; [by apply (scan_IndexError_when_prefetch_last q before) |].
    rewrite (convert_head q tbl v) by done.
    unfold rewrite_lookup_ops. cbv [mbind M_bind StateExn.get lift mret M_ret].
    rewrite (scan_IndexError_when_prefetch_last _ before); [done | | done].
    cbn [global_block set_global_block]. by rewrite retabled_op_types.
Qed.

(** The theorem on the example trainer program, which is converted, and
    on the example programs without prefetch operator and with the
    prefetch operator last, which are not. *)
Lemma convert_completes_witness :
  (let p := Examples.trainer_program in
   (∃ t : prefetch_op_tuple, __get_prefetch_op_tuples p = Return (Some t))
   ∧ (∃ t : prefetch_op_tuple,
        __get_prefetch_op_tuples
          (set_global_block
             (retabled_block "emb" (Examples.dense "emb") (global_block p)) p)
        = Return (Some t))
   ∧ ∃ p', convert_dist_to_sparse_program p = (p', Return ReturnedProgram))
  ∧ (let q := Examples.no_prefetch_program in
     __get_prefetch_op_tuples q = Return None
     ∧ (convert_dist_to_sparse_program q).2 = Raise TypeError)
  ∧ (let q := Examples.prefetch_last_program in
     __get_prefetch_op_tuples q = Raise IndexError
     ∧ (convert_dist_to_sparse_program q).2 = Raise IndexError).
Proof.
  pose proof (convert_completes Examples.trainer_program "emb" (Examples.dense "emb")
                1%nat eq_refl ltac:(discriminate) eq_refl trainer_program_named
                trainer_program_schema trainer_program_declared
                (proj1 trainer_program_first_triple)) as (H1 & H2 & H3 & H4 & H5).
  refine (conj (conj H1 (conj H2 (H3 _))) (conj _ _)).
  - exact (proj2 (proj2 trainer_program_first_triple)).
  - exact (H4 Examples.no_prefetch_program "emb" (Examples.dense "emb")
             eq_refl ltac:(discriminate) eq_refl no_prefetch_program_ops).
  - apply (H5 Examples.prefetch_last_program "emb" (Examples.dense "emb") ["feed"]);
      [reflexivity | discriminate | reflexivity | reflexivity |].
    rewrite list_elem_of_singleton. discriminate.
Defined.

(** C10, as stated, fails: the sequence is there and the scan returns a
    tuple, but split_ids reads "ids", which the global block does not
    declare, and the lookup in [vars] raises KeyError. *)
Lemma convert_raises_on_undeclared_ids :
  let p := Examples.undeclared_ids_program in
  let call := convert_dist_to_sparse_program p in
  _distributed_lookup_table p = Some "emb"
  ∧ is_Some (vars (global_block p) !! "emb")
  ∧ triple_at (op_type <$> ops (global_block p)) 0
  ∧ (∃ t : prefetch_op_tuple, __get_prefetch_op_tuples p = Return (Some t))
  ∧ call.2 = Raise KeyError
  ∧ ¬ ∃ r, call.2 = Return r.
Proof.
  assert (H : (convert_dist_to_sparse_program Examples.undeclared_ids_program).2
              = Raise KeyError) by (vm_compute; reflexivity).
  cbv zeta. rewrite H.
  split; [reflexivity |]. split; [by eexists |]. split; [by repeat split |].
  split; [| split; [done |]].
  - eexists. vm_compute. reflexivity.
  - intros [r Hr]. discriminate.
Qed.

End ConvertOperators.

(** * More on [load_persistables_for_inference]: outcomes *)

Section InferenceOutcomes.

Lemma resolve_program_Return_iff env dirname program q :
  resolve_program env dirname program = Return q
  ↔ program = PyProgram q
    ∨ (truthy program = false
       ∧ ∃ s, file_contents env (path_join dirname model_filename) = Some s
              ∧ parsed_program env s = Some q
              ∧ _is_program_version_supported env (_version q) = true).
Proof.
  unfold resolve_program, read_file, parse_from_string.
  destruct (truthy program) eqn:Htruthy.
  - destruct program as [|p|b]; simpl in Htruthy; try done.
    + split; [intros [= ->]; by left | intros [[= ->] | [? _]]; done].
    + split; [done | intros [? | [? _]]; done].
  - assert (Hnot : program ≠ PyProgram q) by (by destruct program).
    destruct (file_contents env (path_join dirname model_filename)) as [s|]; simpl.
    + destruct (parsed_program env s) as [p|] eqn:Hparse; simpl.
      * destruct (_is_program_version_supported env (_version p)) eqn:Hsup; simpl.
        -- split.
           ++ intros [= ->]. right. split; [done |]. by exists s.
           ++ intros [? | (_ & s' & [= <-] & Hp & _)]; [done | congruence].
        -- split; [done |].
           intros [? | (_ & s' & [= <-] & Hp & Hq)]; [done |].
           congruence.
      * split; [done |].
        intros [? | (_ & s' & [= <-] & Hp & _)]; [done | congruence].
    + split; [done | intros [? | (_ & s' & ? & _)]; done].
Qed.

(** When the loader returns.  [load_persistables_for_inference] returns
    a program exactly when [dirname] is a directory, the program is the
    Program passed in or, for a falsy argument, the program parsed from
    "__model__" with a supported version, the global block of that
    program declares the table variable, the "__lookup_table__"
    directory can be listed and the name of one of its entries contains
    the table's name; every other call raises. *)
Theorem load_persistables_for_inference_returns_iff
    env dirname program tbl e q :
  (load_persistables_for_inference env dirname program tbl e).2 = Return q
  ↔ isdir env dirname = true
    ∧ (program = PyProgram q
       ∨ (truthy program = false
          ∧ ∃ s, file_contents env (path_join dirname model_filename) = Some s
                 ∧ parsed_program env s = Some q
                 ∧ _is_program_version_supported env (_version q) = true))
    ∧ is_Some (vars (global_block q) !! tbl)
    ∧ ∃ entries,
        listdir_entries env (path_join dirname lookup_table_dir) = Some entries
        ∧ ∃ f, f ∈ entries ∧ contains tbl f.
Proof.
  rewrite <- resolve_program_Return_iff.
  destruct (isdir env dirname) eqn:Hdir.
  - destruct (resolve_program env dirname program) as [p|ex] eqn:Hres.
    + rewrite (load_persistables_for_inference_resolved _ _ _ _ _ p) by done.
      destruct (vars (global_block p) !! tbl) as [emb_var|] eqn:Hvar.
      * destruct (listdir_entries env (path_join dirname lookup_table_dir))
          as [entries|] eqn:Hls.
        -- destruct (decide (ForInference.select_emb_files tbl entries = []))
             as [Hsel | Hsel].
           ++ rewrite (build_convert_program_no_shard _ _ _ _ emb_var entries)
                by done.
              simpl. split; [done |].
              intros (_ & [= <-] & _ & entries' & [= <-] & Hsome).
              by apply select_emb_files_nonempty in Hsome.
           ++ destruct (build_convert_program_run env dirname p tbl emb_var entries
                          Hdir Hvar Hls Hsel) as (cp & -> & _).
              simpl. split.
              ** intros [= <-]. rewrite ?Hvar. repeat split; try done.
                 exists entries. split; [done |].
                 by apply select_emb_files_nonempty.
              ** intros (_ & [= ->] & _). done.
        -- rewrite (build_convert_program_unlisted _ _ _ _ emb_var) by done.
           simpl. split; [done |].
           intros (_ & [= <-] & _ & entries' & Hl & _). congruence.
      * rewrite build_convert_program_missing by done. simpl.
        split; [done |]. intros (_ & [= <-] & [? Hv] & _). congruence.
    + unfold load_persistables_for_inference. rewrite Hdir. simpl.
      unfold mbind, M_bind, lift. rewrite Hres. simpl.
      split; [done | intros (_ & ? & _); done].
  - unfold load_persistables_for_inference. rewrite Hdir. simpl.
    split; [done | intros (? & _); done].
Qed.

Lemma select_emb_files_none tbl entries :
  (∀ f, f ∈ entries → ¬ contains tbl f) →
  ForInference.select_emb_files tbl entries = [].
Proof.
  intros Hnone.
  destruct (ForInference.select_emb_files tbl entries) as [|f l] eqn:E; [done |].
  assert (Hf : f ∈ ForInference.select_emb_files tbl entries)
    by (rewrite E; by left).
  apply select_emb_files_spec in Hf as [Hin Hc]. by destruct (Hnone f Hin).
Qed.

(** No shard.  When no entry of the "__lookup_table__" directory
    contains the table's name (an empty directory, for one), the loader
    raises: the 'sum' operator would have no input and is refused when
    it is appended.  The checkpoint variables have been requested by
    then, but no program is run on the executor and nothing is
    returned. *)
Theorem load_persistables_for_inference_raises_without_shards
    env dirname p tbl e emb_var entries :
  isdir env dirname = true →
  vars (global_block p) !! tbl = Some emb_var →
  listdir_entries env (path_join dirname lookup_table_dir) = Some entries →
  (∀ f, f ∈ entries → ¬ contains tbl f) →
  let call := load_persistables_for_inference env dirname (PyProgram p) tbl e in
  (∃ ex, call.2 = Raise ex)
  ∧ history call.1
    = (history e
       ++ [LoadVars dirname
             (filter (λ v, is_valid [tbl] v = true) (list_vars p))])%list
  ∧ programs_run call.1 = programs_run e.
Proof.
  intros Hdir Hvar Hls Hnone call. subst call.
  rewrite (load_persistables_for_inference_resolved _ _ _ _ _ p) by done.
  rewrite (build_convert_program_no_shard _ _ _ _ emb_var entries)
    by (done || by apply select_emb_files_none).
  simpl. split; [by eexists |]. split; [done |].
  unfold programs_run. simpl. rewrite omap_app. simpl. by rewrite app_nil_r.
Qed.

(** The theorem on a "__lookup_table__" directory that holds one
    unrelated file. *)
Lemma load_persistables_for_inference_raises_without_shards_witness :
  let call :=
    load_persistables_for_inference (Examples.checkpoint_env ["README"]) "ckpt"
      (PyProgram Examples.trainer_program) "emb" Examples.idle in
  (∃ ex, call.2 = Raise ex)
  ∧ history call.1
    = (history Examples.idle
       ++ [LoadVars "ckpt"
             (filter (λ v, is_valid ["emb"] v = true)
                (list_vars Examples.trainer_program))])%list
  ∧ programs_run call.1 = programs_run Examples.idle.
Proof.
  apply (load_persistables_for_inference_raises_without_shards
           (Examples.checkpoint_env ["README"]) "ckpt" Examples.trainer_program
           "emb" Examples.idle (Examples.dense "emb") ["README"]);
    [reflexivity | reflexivity | reflexivity |].
  intros f Hf%list_elem_of_singleton. subst f.
  apply str_in_false. reflexivity.
Defined.

End InferenceOutcomes.

(** * Calls in sequence *)

Section Composition.

(** Converting twice.  After a successful conversion of a trainer
    program whose only prefetch operator is the one of the converted
    sequence, [_distributed_lookup_table] is still set and no prefetch
    operator is left: a second call raises TypeError on the None that
    the scan returns. *)
Theorem convert_twice_raises p emb v0 s :
  _distributed_lookup_table p = Some emb →
  emb ≠ EmptyString →
  vars (global_block p) !! emb = Some v0 →
  vars_named (global_block p) →
  Forall op_schema (ops (global_block p)) →
  Forall (args_declared (global_block p)) (ops (global_block p)) →
  first_triple_at (op_type <$> ops (global_block p)) s →
  (∀ j, (op_type <$> ops (global_block p)) !! j = Some "prefetch" → j = S s) →
  let first_call := convert_dist_to_sparse_program p in
  first_call.2 = Return ReturnedProgram
  ∧ (convert_dist_to_sparse_program first_call.1).2 = Raise TypeError.
Proof.
  intros Htable Hne Hvar Hnamed Hschema Hdeclared Hfirst Honly first_call.
  destruct (convert_run p emb v0 s Htable Hne Hvar Hnamed Hschema Hdeclared Hfirst)
    as (o1 & o3 & ids & outs & _ & _ & _ & _ & Hrun).
  subst first_call. rewrite Hrun. cbn [fst snd]. split; [done |].
  set (present := ops (retabled_block emb v0 (global_block p))) in *.
  set (p' := set_global_block _ p).
  assert (Hnone : ∀ o, o ∈ ops (global_block p') → op_type o ≠ "prefetch").
  { assert (Hpresent : ∀ j o, present !! j = Some o → op_type o = "prefetch" →
                              j = S s).
    { intros j o Hj Ho. apply Honly.
      rewrite <- (retabled_op_types emb v0). fold present.
      by rewrite list_lookup_fmap, Hj, <- Ho. }
    intros o. cbn [p' global_block set_global_block ops].
    rewrite !elem_of_app, elem_of_reverse, elem_of_take, list_elem_of_fmap.
    intros [(j & Hj & Hlt) | [(pr & -> & _) | Ho]] Hty.
    - specialize (Hpresent j o Hj Hty). lia.
    - discriminate.
    - apply list_elem_of_lookup in Ho as [j Hj]. rewrite lookup_drop in Hj.
      specialize (Hpresent _ o Hj Hty). lia. }
  assert (Hvar' : vars (global_block p') !! emb = Some (sparse_table_var emb v0)).
  { cbn [p' global_block set_global_block vars]. unfold retabled_block. simpl.
    by rewrite lookup_insert_eq. }
  rewrite (convert_head p' emb (sparse_table_var emb v0)) by done.
  unfold rewrite_lookup_ops. cbv [mbind M_bind StateExn.get lift mret M_ret].
  rewrite scan_None_without_prefetch; [done |].
  intros o. cbn [global_block set_global_block]. by apply retabled_no_prefetch.
Qed.

Lemma trainer_program_one_prefetch j :
  (op_type <$> ops (global_block Examples.trainer_program)) !! j = Some "prefetch" →
  j = 2%nat.
Proof.
  do 5 (destruct j as [|j]; [by intros [=] |]). by intros [=].
Qed.

(** The theorem on the example trainer program. *)
Lemma convert_twice_raises_witness :
  let first_call := convert_dist_to_sparse_program Examples.trainer_program in
  first_call.2 = Return ReturnedProgram
  ∧ (convert_dist_to_sparse_program first_call.1).2 = Raise TypeError.
Proof.
  exact (convert_twice_raises Examples.trainer_program "emb" (Examples.dense "emb")
           1%nat eq_refl ltac:(discriminate) eq_refl trainer_program_named
           trainer_program_schema trainer_program_declared
           trainer_program_first_triple trainer_program_one_prefetch).
Defined.



End Composition.
